(** * The MCP process manager (src/templates/process_manager.py)

    A shallow embedding of [MCPProcessManager]: the two durable files
    [.mcp.pid] and [.mcp.last_active], the operating-system process table,
    the in-memory manager object, and every method of the class as a
    computation in a state-and-exception monad.  Exceptions keep the side
    effects made before they were raised, as in Python.

    A method is modelled as one sequential run; the monitor thread, which runs
    beside the caller, has a step function of its own over a logical clock
    ([monitor_step]).  What the environment may do to a run (a file that cannot
    be opened, a signal that cannot be delivered, a child that does not exit)
    is a list of injected faults that is part of the state, and so is what
    [stat] fails with on each of the two paths, so a statement about every
    state is a statement about every such failure. *)

From Stdlib Require Import ZArith Ascii String List Bool Lia.
From Stdlib Require Import Floats.PrimFloat Floats.SpecFloat Floats.FloatOps.
From Stdlib Require Import Numbers.Cyclic.Int63.Uint63.
Import ListNotations.
Local Open Scope string_scope.
Local Open Scope Z_scope.

(** ** Exceptions *)

(** The exception classes that the modelled calls can raise.  The first four
    are [OSError] and three of its subclasses. *)
Inductive exn : Type :=
| OSError
| FileNotFoundError
| ProcessLookupError
| PermissionError
| NameError
| ValueError
| OverflowError
| TimeoutExpired
| AttributeError
| RuntimeError.

(** [isinstance(e, OSError)]. *)
Definition is_OSError (e : exn) : bool :=
  match e with
  | OSError | FileNotFoundError | ProcessLookupError | PermissionError => true
  | _ => false
  end.

(** [isinstance(e, ProcessLookupError)]. *)
Definition is_ProcessLookupError (e : exn) : bool :=
  match e with
  | ProcessLookupError => true
  | _ => false
  end.

(** ** Data model *)

(** The two durable files of a skill directory: [skill_dir / '.mcp.pid'] and
    [skill_dir / '.mcp.last_active']. *)
Inductive path : Type :=
| pid_file
| last_active_file.

(** [signal.SIGTERM], and the null signal that [os.kill(pid, 0)] uses to probe
    for a process without delivering anything. *)
Definition SIGTERM : Z := 15.
Definition SIG_PROBE : Z := 0.

(** A [subprocess.Popen] object, as far as the manager looks at it. *)
Record Popen : Type := mkPopen {
  pid : Z;
  returncode : option Z
}.

(** What the manager does to the outside world, in call order (oldest first):
    every [os.kill(pid, sig)] it issues, whether or not the call raised, every
    child it spawned, the monitor thread it started, and every line it wrote to
    the standard error stream. *)
Inductive event : Type :=
| SysKill (target : Z) (sig : Z)
| SysSpawn (argv : list string) (child : Z)
| ThreadStart
| Stderr (line : string).

(** The operating system as the manager sees it: the contents of the two
    files ([None] for a file that is not there), the identifiers the system
    has a process for, the identifiers of the process groups that have a
    member, the identifier the next child gets, the exit status a reaped child
    reports, and the clock.  [oracle] is the list of faults the environment
    injects into the fallible calls, one entry per call in call order:
    [Some e] makes that call raise [e], [None] (and an exhausted list) lets it
    run.  A worker that does not exit within the bounded wait of [stop] is the
    entry [Some TimeoutExpired] of that wait.  [stat_pid] and
    [stat_last_active] say what the [stat] behind [Path.exists()] fails with
    on each of the two paths, when it fails with an error that [exists()]
    does not turn into [False] (no search permission on the directory, a path
    too long, an input/output error).  The methods call [exists()] outside
    their [try] blocks.  Whether [stat] works on a path is taken as a property
    of the file system that no method changes; it may differ between the two
    paths, the name of the last-active file being the longer one. *)
Record World : Type := mkWorld {
  fs_pid : option string;
  fs_last_active : option string;
  procs : list Z;
  groups : list Z;
  next_pid : Z;
  child_status : Z;
  now : float;
  oracle : list (option exn);
  stat_pid : option exn;
  stat_last_active : option exn;
  trace : list event
}.

(** The fields of [self].  [request_queue] and [response_queue] are never read
    and are left out; [worker_process] is read by [stop] only. *)
Record Manager : Type := mkManager {
  command : string;
  args : list string;
  enabled : bool;
  timeout : float;
  check_interval : float;
  process : option Popen;
  worker_process : option Z;
  _stop_event : bool;
  _monitor_thread : bool
}.

Record State : Type := mkState {
  self : Manager;
  world : World
}.

(** The configuration mapping handed to [__init__]: a key that is absent is
    [None].  The two durations are numbers of seconds, taken as floats. *)
Record KeepAlive : Type := mkKeepAlive {
  ka_enabled : option bool;
  ka_timeout : option float;
  ka_check_interval : option float
}.

Record Config : Type := mkConfig {
  cfg_keep_alive : option KeepAlive;
  cfg_command : option string;
  cfg_args : option (list string)
}.

Definition get_default {A : Type} (o : option A) (d : A) : A :=
  match o with
  | Some a => a
  | None => d
  end.

(** [MCPProcessManager.__init__]; an absent [keep_alive] is the empty mapping,
    and [_start_worker] reads [command] and [args] with the defaults [''] and
    [[]]. *)
Definition __init__ (config : Config) : Manager :=
  let keep_alive := get_default (cfg_keep_alive config) (mkKeepAlive None None None) in
  {| command := get_default (cfg_command config) "";
     args := get_default (cfg_args config) [];
     enabled := get_default (ka_enabled keep_alive) true;
     timeout := get_default (ka_timeout keep_alive) 3600%float;
     check_interval := get_default (ka_check_interval keep_alive) 60%float;
     process := None;
     worker_process := None;
     _stop_event := false;
     _monitor_thread := false |}.

(** ** Record updates *)

Definition with_file (p : path) (c : option string) (w : World) : World :=
  match p with
  | pid_file =>
      mkWorld c (fs_last_active w) (procs w) (groups w) (next_pid w)
              (child_status w) (now w) (oracle w) (stat_pid w)
          (stat_last_active w) (trace w)
  | last_active_file =>
      mkWorld (fs_pid w) c (procs w) (groups w) (next_pid w)
              (child_status w) (now w) (oracle w) (stat_pid w)
          (stat_last_active w) (trace w)
  end.

Definition with_oracle (o : list (option exn)) (w : World) : World :=
  mkWorld (fs_pid w) (fs_last_active w) (procs w) (groups w) (next_pid w)
          (child_status w) (now w) o (stat_pid w)
          (stat_last_active w) (trace w).

Definition with_stat_errors (e_pid e_last : option exn) (w : World) : World :=
  mkWorld (fs_pid w) (fs_last_active w) (procs w) (groups w) (next_pid w)
          (child_status w) (now w) (oracle w) e_pid e_last (trace w).

Definition with_trace (t : list event) (w : World) : World :=
  mkWorld (fs_pid w) (fs_last_active w) (procs w) (groups w) (next_pid w)
          (child_status w) (now w) (oracle w) (stat_pid w)
          (stat_last_active w) t.

Definition with_procs (ps : list Z) (w : World) : World :=
  mkWorld (fs_pid w) (fs_last_active w) ps (groups w) (next_pid w)
          (child_status w) (now w) (oracle w) (stat_pid w)
          (stat_last_active w) (trace w).

Definition with_next_pid (n : Z) (w : World) : World :=
  mkWorld (fs_pid w) (fs_last_active w) (procs w) (groups w) n
          (child_status w) (now w) (oracle w) (stat_pid w)
          (stat_last_active w) (trace w).

Definition with_now (t : float) (w : World) : World :=
  mkWorld (fs_pid w) (fs_last_active w) (procs w) (groups w) (next_pid w)
          (child_status w) t (oracle w) (stat_pid w)
          (stat_last_active w) (trace w).

Definition with_process (p : option Popen) (m : Manager) : Manager :=
  mkManager (command m) (args m) (enabled m) (timeout m) (check_interval m)
            p (worker_process m) (_stop_event m) (_monitor_thread m).

Definition with_stop_event (b : bool) (m : Manager) : Manager :=
  mkManager (command m) (args m) (enabled m) (timeout m) (check_interval m)
            (process m) (worker_process m) b (_monitor_thread m).

Definition with_monitor_thread (b : bool) (m : Manager) : Manager :=
  mkManager (command m) (args m) (enabled m) (timeout m) (check_interval m)
            (process m) (worker_process m) (_stop_event m) b.

Definition file (p : path) (w : World) : option string :=
  match p with
  | pid_file => fs_pid w
  | last_active_file => fs_last_active w
  end.

(** ** The monad *)

Inductive result (A : Type) : Type :=
| Ret (a : A)
| Raise (e : exn).
Arguments Ret {A} a.
Arguments Raise {A} e.

Definition M (A : Type) : Type := State -> result A * State.

Definition ret {A : Type} (a : A) : M A := fun s => (Ret a, s).

Definition raise {A : Type} (e : exn) : M A := fun s => (Raise e, s).

Definition bind {A B : Type} (m : M A) (k : A -> M B) : M B :=
  fun s =>
    match m s with
    | (Ret a, s') => k a s'
    | (Raise e, s') => (Raise e, s')
    end.

Notation "x <- c ;; k" := (bind c (fun x => k))
  (at level 61, c at next level, right associativity).
Notation "c ;; k" := (bind c (fun _ => k))
  (at level 61, right associativity).

(** [try: body  except: handler] when [catches] is constantly true, and
    [except OSError:] and the like otherwise: an exception the clause does not
    match propagates. *)
Definition try_except {A : Type} (catches : exn -> bool) (body handler : M A) : M A :=
  fun s =>
    match body s with
    | (Ret a, s') => (Ret a, s')
    | (Raise e, s') => if catches e then handler s' else (Raise e, s')
    end.

Definition anything (_ : exn) : bool := true.

Definition gets {A : Type} (f : State -> A) : M A := fun s => (Ret (f s), s).

Definition modify_world (f : World -> World) : M unit :=
  fun s => (Ret tt, mkState (self s) (f (world s))).

Definition modify_self (f : Manager -> Manager) : M unit :=
  fun s => (Ret tt, mkState (f (self s)) (world s)).

(** [for x in xs: body(x)]. *)
Fixpoint for_each {A : Type} (xs : list A) (body : A -> M unit) : M unit :=
  match xs with
  | [] => ret tt
  | x :: rest => body x ;; for_each rest body
  end.

(** ** Library calls *)

(** The next entry of the fault oracle; every fallible call consumes one. *)
Definition fault : M (option exn) :=
  fun s =>
    (Ret (hd None (oracle (world s))),
     mkState (self s) (with_oracle (tl (oracle (world s))) (world s))).

Definition fallible : M unit :=
  o <- fault ;;
  match o with
  | Some e => raise e
  | None => ret tt
  end.

Definition log (e : event) : M unit :=
  modify_world (fun w => with_trace (trace w ++ [e]) w).

Definition is_some {A : Type} (o : option A) : bool :=
  match o with
  | Some _ => true
  | None => false
  end.

(** What [stat] fails with on a path, if it does. *)
Definition stat_error (p : path) (w : World) : option exn :=
  match p with
  | pid_file => stat_pid w
  | last_active_file => stat_last_active w
  end.

(** [Path.exists()]: the test whether the file is there.  It answers [False]
    for a file that is not there, and it raises the error of its [stat] when
    that is not one of those it reads as absence. *)
Definition path_exists (p : path) : M bool :=
  err <- gets (fun s => stat_error p (world s)) ;;
  match err with
  | Some e => raise e
  | None => gets (fun s => is_some (file p (world s)))
  end.

(** [open(p, 'r')]. *)
Definition open_r (p : path) : M unit :=
  fallible ;;
  c <- gets (fun s => file p (world s)) ;;
  match c with
  | Some _ => ret tt
  | None => raise FileNotFoundError
  end.

(** [f.read()] on a file opened for reading. *)
Definition f_read (p : path) : M string :=
  fallible ;;
  c <- gets (fun s => file p (world s)) ;;
  ret (get_default c "").

(** [open(p, 'w')]: creates the file, or truncates it. *)
Definition open_w (p : path) : M unit :=
  fallible ;;
  modify_world (with_file p (Some "")).

(** [f.write(txt)] on a file opened for writing, up to the close that ends the
    [with] block. *)
Definition f_write (p : path) (txt : string) : M unit :=
  fallible ;;
  modify_world (with_file p (Some txt)).

(** [Path.unlink()]. *)
Definition unlink (p : path) : M unit :=
  fallible ;;
  c <- gets (fun s => file p (world s)) ;;
  match c with
  | Some _ => modify_world (with_file p None)
  | None => raise FileNotFoundError
  end.

Definition mem (x : Z) (xs : list Z) : bool := existsb (Z.eqb x) xs.
Arguments mem : simpl never.

(** What [os.kill(target, sig)] reaches: the process [target]; for a [target]
    of zero the process group of the caller, which always has a member; for
    [-1] every process the caller may signal; for another negative [target]
    the process group [- target].  Process identifiers are positive, so for
    a positive [target] this is the test that the process exists. *)
Definition kill_reaches (w : World) (target : Z) : bool :=
  mem target (procs w)
  || (target =? 0)
  || (target =? -1)
  || ((target <? -1) && mem (- target) (groups w)).
Arguments kill_reaches : simpl never.

(** [os.kill(target, sig)].  The call is recorded before it can fail.  It
    raises [ProcessLookupError] when it reaches nothing; delivering a signal
    does not by itself change the process table (the target exits, if it
    does, on its own time). *)
Definition os_kill (target sig : Z) : M unit :=
  log (SysKill target sig) ;;
  fallible ;;
  w <- gets world ;;
  if kill_reaches w target then ret tt else raise ProcessLookupError.

(** [time.time()]. *)
Definition time_time : M float := gets (fun s => now (world s)).

(** The argument check of [time.sleep(secs)]: NaN is a [ValueError]; a
    duration that does not fit the interpreter's clock, a signed 64-bit count
    of nanoseconds, is an [OverflowError], infinities included; a negative
    duration that does fit is a [ValueError]. *)
Definition sleep_error (secs : float) : option exn :=
  if PrimFloat.is_nan secs then Some ValueError
  else if PrimFloat.ltb 9223372036854775808%float
            (PrimFloat.abs (PrimFloat.mul secs 1000000000%float))
  then Some OverflowError
  else if PrimFloat.ltb secs 0%float then Some ValueError
  else None.

(** [time.sleep(secs)]: an argument the check refuses raises; otherwise the
    call returns once [secs] seconds have gone by, whatever happens to the
    manager's fields meanwhile. *)
Definition time_sleep (secs : float) : M unit :=
  match sleep_error secs with
  | Some e => raise e
  | None => modify_world (fun w => with_now (PrimFloat.add (now w) secs) w)
  end.

(** [subprocess.Popen(argv, ...)]: the environment overlay and the three pipes
    are not modelled. *)
Definition subprocess_Popen (argv : list string) : M Popen :=
  fallible ;;
  child <- gets (fun s => next_pid (world s)) ;;
  modify_world (fun w => with_next_pid (child + 1) (with_procs (child :: procs w) w)) ;;
  log (SysSpawn argv child) ;;
  ret (mkPopen child None).

(** The names bound at module level of process_manager.py: its imports
    ([json], [time], [signal], [threading], [Path], [Optional], [Dict], [Any],
    [Process], [Queue], [subprocess]) and its own definitions.  [os] is
    imported inside the functions that use it.  [sys] is imported nowhere. *)
Definition module_globals : list string :=
  [ "json"; "time"; "signal"; "threading"; "Path"; "Optional"; "Dict"; "Any";
    "Process"; "Queue"; "subprocess"; "MCPProcessManager"; "_manager";
    "init_manager"; "get_manager"; "shutdown_manager" ].

(** Evaluating a global name that is not a builtin. *)
Definition load_global (name : string) : M unit :=
  if existsb (String.eqb name) module_globals then ret tt else raise NameError.

(** [print(line, file=sys.stderr)]: the arguments are evaluated first, so the
    lookup of [sys] comes before anything is written. *)
Definition print_stderr (line : string) : M unit :=
  load_global "sys" ;;
  log (Stderr line).

Definition set_process (p : option Popen) : M unit := modify_self (with_process p).

(** [self.process.poll()]: a child the operating system no longer lists has
    exited and is reaped, which sets [returncode]. *)
Definition Popen_poll : M (option Z) :=
  h <- gets (fun s => process (self s)) ;;
  match h with
  | None => raise AttributeError
  | Some p =>
      match returncode p with
      | Some c => ret (Some c)
      | None =>
          ps <- gets (fun s => procs (world s)) ;;
          if mem (pid p) ps then ret None
          else
            c <- gets (fun s => child_status (world s)) ;;
            set_process (Some (mkPopen (pid p) (Some c))) ;;
            ret (Some c)
      end
  end.

(** [self.process.terminate()]: [send_signal(SIGTERM)], which polls first, does
    nothing for a child already reaped, and ignores [ProcessLookupError]. *)
Definition Popen_terminate : M unit :=
  rc <- Popen_poll ;;
  match rc with
  | Some _ => ret tt
  | None =>
      h <- gets (fun s => process (self s)) ;;
      match h with
      | None => raise AttributeError
      | Some p =>
          try_except is_ProcessLookupError (os_kill (pid p) SIGTERM) (ret tt)
      end
  end.

(** [self.process.wait(timeout=secs)]: returns at once for a child already
    reaped; otherwise it blocks, and either the child exits in time and is
    reaped, or the wait raises (the oracle entry, [TimeoutExpired] for a child
    that is still running when the time is up). *)
Definition Popen_wait (secs : float) : M Z :=
  h <- gets (fun s => process (self s)) ;;
  match h with
  | None => raise AttributeError
  | Some p =>
      match returncode p with
      | Some c => ret c
      | None =>
          fallible ;;
          c <- gets (fun s => child_status (world s)) ;;
          modify_world (fun w => with_procs (filter (fun q => negb (Z.eqb q (pid p))) (procs w)) w) ;;
          set_process (Some (mkPopen (pid p) (Some c))) ;;
          ret c
      end
  end.

(** [multiprocessing.Process.terminate()] and [.join(timeout)] on
    [self.worker_process], which holds the child's identifier. *)
Definition Process_terminate (w : Z) : M unit :=
  try_except is_ProcessLookupError (os_kill w SIGTERM) (ret tt).

Definition Process_join (w : Z) (secs : float) : M unit := ret tt.

(** [threading.Thread.join(timeout)]: the caller waits until the thread has
    ended or the timeout is over, and goes on either way.  How long that takes
    is not modelled: the call leaves the state, the clock included, as it
    is. *)
Definition Thread_join (secs : float) : M unit := ret tt.

(** The builtins that read and print numbers.  [None] stands for the
    [ValueError] that [int] and [float] raise on text they do not accept. *)
Class PyBuiltins : Type := {
  py_int : string -> option Z;          (* int(s.strip()) *)
  py_float : string -> option float;    (* float(s.strip()) *)
  str_int : Z -> string;                (* str(n) *)
  str_float : float -> string;          (* str(x) *)
  fmt_0f : float -> string              (* f"{x:.0f}" *)
}.

(** ** The methods of [MCPProcessManager] *)

Section Methods.

Context {py : PyBuiltins}.

Definition to_int (txt : string) : M Z :=
  match py_int txt with
  | Some n => ret n
  | None => raise ValueError
  end.

Definition to_float (txt : string) : M float :=
  match py_float txt with
  | Some x => ret x
  | None => raise ValueError
  end.

(** [with open(p, 'r') as f: ... f.read().strip() ...]. *)
Definition read_text (p : path) : M string :=
  open_r p ;;
  f_read p.

(** [with open(p, 'w') as f: f.write(txt)], where [txt] is computed after the
    file has been opened. *)
Definition write_text (p : path) (txt : M string) : M unit :=
  open_w p ;;
  t <- txt ;;
  f_write p t.

Definition update_heartbeat : M unit :=
  en <- gets (fun s => enabled (self s)) ;;
  if negb en then ret tt
  else
    write_text last_active_file (t <- time_time ;; ret (str_float t)).

Definition is_process_alive : M bool :=
  present <- path_exists pid_file ;;
  if negb present then ret false
  else
    try_except anything
      (txt <- read_text pid_file ;;
       pid <- to_int txt ;;
       try_except is_OSError
         (os_kill pid SIG_PROBE ;;
          ret true)
         (ret false))
      (ret false).

Definition _cleanup_files : M unit :=
  for_each [pid_file; last_active_file]
    (fun file =>
       present <- path_exists file ;;
       if present then try_except anything (unlink file) (ret tt)
       else ret tt).

Definition _terminate_process : M unit :=
  present <- path_exists pid_file ;;
  (if present then
     try_except anything
       (txt <- read_text pid_file ;;
        pid <- to_int txt ;;
        os_kill pid SIGTERM)
       (ret tt)
   else ret tt) ;;
  _cleanup_files.

Definition _check_timeout : M unit :=
  present <- path_exists last_active_file ;;
  if negb present then ret tt
  else
    try_except anything
      (txt <- read_text last_active_file ;;
       last_active <- to_float txt ;;
       t <- time_time ;;
       let idle_time := PrimFloat.sub t last_active in
       limit <- gets (fun s => timeout (self s)) ;;
       if PrimFloat.ltb limit idle_time then
         print_stderr ("[MCP Process Manager] Process idle for "
                       ++ fmt_0f idle_time ++ "s, terminating...") ;;
         _terminate_process
       else ret tt)
      (ret tt).

(** The body of the [while] loop of [_monitor_loop] before the sleep: one
    tick. *)
Definition monitor_tick : M unit :=
  alive <- is_process_alive ;;
  if alive then _check_timeout else _cleanup_files.

(** How a bounded run of the loop ended: the loop saw the stop event and
    returned, or it was still going when the fuel ran out. *)
Inductive loop_end : Type :=
| LoopReturned
| LoopRunning.

(** [_monitor_loop], run for at most [fuel] iterations. *)
Fixpoint _monitor_loop (fuel : nat) : M loop_end :=
  match fuel with
  | O => ret LoopRunning
  | S fuel' =>
      stopped <- gets (fun s => _stop_event (self s)) ;;
      if stopped then ret LoopReturned
      else
        monitor_tick ;;
        secs <- gets (fun s => check_interval (self s)) ;;
        time_sleep secs ;;
        _monitor_loop fuel'
  end.

(** [_start_monitor]: the thread object is stored and started.  This is the
    caller's side only: what the thread then does is [_monitor_loop], which
    runs beside the caller from here on ([monitor_step]), so its ticks, the
    first one included, may fall between any two steps of the method that
    started it. *)
Definition _start_monitor : M unit :=
  modify_self (with_monitor_thread true) ;;
  log ThreadStart.

Definition _start_worker : M unit :=
  alive <- is_process_alive ;;
  if alive then ret tt
  else
    command <- gets (fun s => command (self s)) ;;
    args <- gets (fun s => args (self s)) ;;
    p <- subprocess_Popen (command :: args) ;;
    set_process (Some p) ;;
    write_text pid_file (ret (str_int (pid p))) ;;
    update_heartbeat ;;
    print_stderr ("[MCP Process Manager] Started process PID: " ++ str_int (pid p)).

Definition start : M unit :=
  en <- gets (fun s => enabled (self s)) ;;
  if negb en then ret tt
  else
    _start_monitor ;;
    _start_worker.

Definition stop : M unit :=
  modify_self (with_stop_event true) ;;
  th <- gets (fun s => _monitor_thread (self s)) ;;
  (if th then Thread_join 5%float else ret tt) ;;
  wp <- gets (fun s => worker_process (self s)) ;;
  match wp with
  | Some w =>
      Process_terminate w ;;
      Process_join w 5%float
  | None => ret tt
  end ;;
  h <- gets (fun s => process (self s)) ;;
  match h with
  | Some _ =>
      Popen_terminate ;;
      _ <- Popen_wait 5%float ;;
      ret tt
  | None => ret tt
  end ;;
  _cleanup_files.

Definition get_process : M (option Popen) :=
  en <- gets (fun s => enabled (self s)) ;;
  if negb en then ret None
  else
    alive <- is_process_alive ;;
    (if negb alive then _start_worker else update_heartbeat) ;;
    gets (fun s => process (self s)).

End Methods.

(** ** The monitor thread beside the caller

    [_monitor_loop] runs in a thread of its own, so [stop] can set the stop
    event while the loop is anywhere in its body.  The thread is either at the
    [while] test, inside [time.sleep] until the clock reaches [wake], has
    returned, or has died of an exception that escaped the loop. *)

Inductive monitor_pc : Type :=
| AtLoopHead
| InSleep (wake : float)
| Returned
| Died (e : exn).

Section MonitorThread.

Context {py : PyBuiltins}.

(** One scheduling step of the monitor thread.  At the loop head it tests the
    stop event and, when the event is clear, runs the tick and enters
    [time.sleep(self.check_interval)]; inside the sleep it stays there until
    the interval is over.  Between two steps the other threads and the clock
    may change the state. *)
Definition monitor_step (pc : monitor_pc) (s : State) : monitor_pc * State :=
  match pc with
  | AtLoopHead =>
      if _stop_event (self s) then (Returned, s)
      else
        match monitor_tick s with
        | (Raise e, s') => (Died e, s')
        | (Ret _, s') =>
            let secs := check_interval (self s') in
            match sleep_error secs with
            | Some e => (Died e, s')
            | None => (InSleep (PrimFloat.add (now (world s')) secs), s')
            end
        end
  | InSleep wake =>
      if PrimFloat.ltb (now (world s)) wake then (InSleep wake, s)
      else (AtLoopHead, s)
  | Returned => (Returned, s)
  | Died e => (Died e, s)
  end.

End MonitorThread.

(** What the caller's thread does to the state between two steps of the
    monitor: [stop] begins by setting the event, and time passes. *)
Definition set_stop_event (s : State) : State :=
  mkState (with_stop_event true (self s)) (world s).

Definition clock_at (t : float) (s : State) : State :=
  mkState (self s) (with_now t (world s)).

(** ** An instance of the builtins for the examples

    Decimal text for integers, and for floats the integer-valued ones
    ([103] or [103.0]), which is all the examples below write and read. *)

Definition is_space (c : Ascii.ascii) : bool :=
  let n := Z.of_nat (Ascii.nat_of_ascii c) in
  (n =? 32) || ((9 <=? n) && (n <=? 13)).

Fixpoint lstrip (s : string) : string :=
  match s with
  | String c r => if is_space c then lstrip r else s
  | EmptyString => EmptyString
  end.

Fixpoint rev_string (acc s : string) : string :=
  match s with
  | String c r => rev_string (String c acc) r
  | EmptyString => acc
  end.

Definition strip (s : string) : string :=
  rev_string "" (lstrip (rev_string "" (lstrip s))).

Definition digit_of (c : Ascii.ascii) : option Z :=
  let n := Z.of_nat (Ascii.nat_of_ascii c) in
  if (48 <=? n) && (n <=? 57) then Some (n - 48) else None.

Fixpoint digits_value (acc : Z) (s : string) : option Z :=
  match s with
  | EmptyString => Some acc
  | String c r =>
      match digit_of c with
      | Some d => digits_value (10 * acc + d) r
      | None => None
      end
  end.

Definition unsigned_decimal (s : string) : option Z :=
  match s with
  | EmptyString => None
  | _ => digits_value 0 s
  end.

Definition signed_decimal (s : string) : option Z :=
  match s with
  | String "-"%char r => option_map Z.opp (unsigned_decimal r)
  | String "+"%char r => unsigned_decimal r
  | _ => unsigned_decimal s
  end.

Definition decimal_int (s : string) : option Z := signed_decimal (strip s).

Fixpoint digits_of_pos (fuel : nat) (n : Z) (acc : string) : string :=
  match fuel with
  | O => acc
  | S fuel' =>
      let d := Ascii.ascii_of_nat (Z.to_nat (48 + n mod 10)) in
      if n <? 10 then String d acc
      else digits_of_pos fuel' (n / 10) (String d acc)
  end.

Definition decimal_str (n : Z) : string :=
  if n <? 0 then String "-"%char (digits_of_pos (Z.to_nat (Z.log2 (- n)) + 1) (- n) "")
  else digits_of_pos (Z.to_nat (Z.log2 n) + 1) n "".

(** The float of an integer, and the integer part of a float. *)
Definition float_of_Z (n : Z) : float :=
  if n <? 0 then PrimFloat.opp (PrimFloat.of_uint63 (Uint63.of_Z (- n)))
  else PrimFloat.of_uint63 (Uint63.of_Z n).

Definition Z_of_float (x : float) : Z :=
  match Prim2SF x with
  | S754_finite sign m e =>
      let v := if 0 <=? e then Z.pos m * 2 ^ e else Z.pos m / 2 ^ (- e) in
      if sign then - v else v
  | _ => 0
  end.

(** Text of the shape [digits] or [digits.0...0], with surrounding blanks
    and a sign. *)
Fixpoint all_zeros (s : string) : bool :=
  match s with
  | EmptyString => true
  | String c r => (Z.of_nat (Ascii.nat_of_ascii c) =? 48) && all_zeros r
  end.

Fixpoint split_at_dot (acc s : string) : string * option string :=
  match s with
  | EmptyString => (rev_string "" acc, None)
  | String c r =>
      if Z.of_nat (Ascii.nat_of_ascii c) =? 46 then (rev_string "" acc, Some r)
      else split_at_dot (String c acc) r
  end.

Definition decimal_float (s : string) : option float :=
  match split_at_dot "" (strip s) with
  | (whole, None) => option_map float_of_Z (signed_decimal whole)
  | (whole, Some frac) =>
      if all_zeros frac then option_map float_of_Z (signed_decimal whole)
      else None
  end.

#[export] Instance decimal_builtins : PyBuiltins := {
  py_int := decimal_int;
  py_float := decimal_float;
  str_int := decimal_str;
  str_float := fun x => decimal_str (Z_of_float x) ++ ".0";
  fmt_0f := fun x => decimal_str (Z_of_float x)
}.

(** ** Observations the statements are written with *)

Definition no_fault (o : option exn) : bool := negb (is_some o).

(** No call of the run that starts in [s] is made to fail by the
    environment: [stat] works on both paths, files can be opened, read,
    written and removed, signals can be sent to the processes that exist, and
    a child that is waited for exits within the bound. *)
Definition fault_free (s : State) : bool :=
  forallb no_fault (oracle (world s))
  && no_fault (stat_pid (world s)) && no_fault (stat_last_active (world s)).

(** [Path.exists()] works on both paths; the other calls may be made to
    fail. *)
Definition stat_ok (s : State) : bool :=
  no_fault (stat_pid (world s)) && no_fault (stat_last_active (world s)).

(** An [os.kill] with a signal other than the null signal: a signal sent. *)
Definition is_signal (e : event) : bool :=
  match e with
  | SysKill _ sig => negb (sig =? SIG_PROBE)
  | _ => false
  end.

Definition is_spawn (e : event) : bool :=
  match e with
  | SysSpawn _ _ => true
  | _ => false
  end.

Definition signals (s : State) : list event := filter is_signal (trace (world s)).

Definition spawns (s : State) : list event := filter is_spawn (trace (world s)).

(** The manager holds a handle on a worker it has not seen exit. *)
Definition live_handle (s : State) : bool :=
  match process (self s) with
  | Some p => negb (is_some (returncode p))
  | None => false
  end.

(** The identifier behind the in-memory handle, when there is a handle. *)
Definition handle_pid (s : State) : option Z := option_map pid (process (self s)).

(** The in-memory handle and the durable identity record are both there or
    both cleared. *)
Definition handle_matches_record (s : State) : Prop :=
  process (self s) = None <-> fs_pid (world s) = None.

(** What a run can change of a state, but for the list of faults it
    consumes. *)
Definition but_oracle (s : State) :=
  (self s, fs_pid (world s), fs_last_active (world s), procs (world s),
   next_pid (world s), child_status (world s), now (world s), trace (world s)).

(** A computation that never raises. *)
Definition returns {A : Type} (m : M A) : Prop :=
  forall s, exists a s', m s = (Ret a, s').

(** A computation whose every run, returning or raising, relates the state it
    starts in to the state it ends in. *)
Definition keeps {A : Type} (R : State -> State -> Prop) (m : M A) : Prop :=
  forall s, R s (snd (m s)).

(** Relations on states that every run may be chained through. *)
Class Frame (R : State -> State -> Prop) : Prop := {
  frame_refl : forall s, R s s;
  frame_trans : forall a b c, R a b -> R b c -> R a c
}.

(** The runs that leave an observation of the state as it was. *)
Definition same {X : Type} (obs : State -> X) : State -> State -> Prop :=
  fun s s' => obs s' = obs s.

(** A method under which the in-memory handle and the durable identity record
    stay together: started where both are there or both are cleared, it ends
    where both are there or both are cleared. *)
Definition clears_handle_with_record (m : M unit) : Prop :=
  forall s, handle_matches_record s -> handle_matches_record (snd (m s)).

(** The stop event interrupts the sleep between two ticks: once the event is
    set, a monitor thread that is inside its sleep does not stay there. *)
Definition stop_event_wakes_sleeper : Prop :=
  forall (s : State) (wake : float),
    _stop_event (self s) = true ->
    fst (monitor_step (InSleep wake) s) <> InSleep wake.

(** A run that starts without pending faults ends without pending faults. *)
Definition still_fault_free (s s' : State) : Prop :=
  fault_free s = true -> fault_free s' = true.

(** ** Example configurations and states *)

Definition example_config : Config :=
  mkConfig (Some (mkKeepAlive (Some true) (Some 2%float) (Some 1%float)))
           (Some "mcp-worker") (Some ["--stdio"]).

Definition disabled_config : Config :=
  mkConfig (Some (mkKeepAlive (Some false) None None))
           (Some "mcp-worker") (Some ["--stdio"]).

(** No durable file, no process, the clock at 103 seconds. *)
Definition fresh_world : World :=
  mkWorld None None [] [] 5000 0 103%float [] None None [].

(** A worker 4242 that runs and was last active at 100 seconds: idle for 3
    seconds at 103, with an idle timeout of 2. *)
Definition idle_world : World :=
  mkWorld (Some "4242") (Some "100.0") [4242] [4242] 5000 0 103%float [] None None [].

Definition idle_state : State :=
  mkState (with_process (Some (mkPopen 4242 None)) (__init__ example_config)) idle_world.

(** The identity file names a process 999 that does not exist, beside a stale
    last-active file; the manager still holds the handle of that worker. *)
Definition crashed_world : World :=
  mkWorld (Some "999") (Some "1.0") [] [] 5000 0 103%float [] None None [].

Definition crashed_state : State :=
  mkState (with_process (Some (mkPopen 999 None)) (__init__ example_config)) crashed_world.

(** An enabled manager just constructed, with no durable file and no worker. *)
Definition fresh_state : State :=
  mkState (__init__ example_config) fresh_world.

(** A manager constructed from the disabled configuration. *)
Definition disabled_state : State :=
  mkState (__init__ disabled_config) fresh_world.

(** ** The module-level manager

    [_manager], the one global of the module, and the three functions around
    it.  The global holds the manager object; a method called through it
    works on that object, so what the method does to the fields is seen
    through the global afterwards, whether the method returned or raised.
    All managers share the one skill directory of [World]. *)

Record Program : Type := mkProgram {
  _manager : option Manager;
  os_world : World
}.

Section ModuleFunctions.

Context {py : PyBuiltins}.

(** [_manager.method()]. *)
Definition call_on_manager {A : Type} (method : M A) (g : Program)
  : result A * Program :=
  match _manager g with
  | None => (Raise AttributeError, g)
  | Some m =>
      let (r, s') := method (mkState m (os_world g)) in
      (r, mkProgram (Some (self s')) (world s'))
  end.

Definition init_manager (config : Config) (g : Program) : result unit * Program :=
  call_on_manager start (mkProgram (Some (__init__ config)) (os_world g)).

Definition get_manager (g : Program) : option Manager := _manager g.

Definition shutdown_manager (g : Program) : result unit * Program :=
  match _manager g with
  | Some _ =>
      match call_on_manager stop g with
      | (Ret _, g') => (Ret tt, mkProgram None (os_world g'))
      | (Raise e, g') => (Raise e, g')
      end
  | None => (Ret tt, g)
  end.

(** The part of [_start_worker] after the liveness test: the spawn and its
    bookkeeping. *)
Definition _start_worker_spawn : M unit :=
  command <- gets (fun s => command (self s)) ;;
  args <- gets (fun s => args (self s)) ;;
  p <- subprocess_Popen (command :: args) ;;
  set_process (Some p) ;;
  write_text pid_file (ret (str_int (pid p))) ;;
  update_heartbeat ;;
  print_stderr ("[MCP Process Manager] Started process PID: " ++ str_int (pid p)).

(** The part of [_terminate_process] before the cleanup: the signal. *)
Definition _terminate_process_signal : M unit :=
  present <- path_exists pid_file ;;
  if present then
    try_except anything
      (txt <- read_text pid_file ;;
       pid <- to_int txt ;;
       os_kill pid SIGTERM)
      (ret tt)
  else ret tt.

End ModuleFunctions.

(** ** Further observations *)

(** A computation that never returns normally. *)
Definition raises {A : Type} (m : M A) : Prop :=
  forall s, exists e, fst (m s) = Raise e.

(** What of a state outlives the run of a query: everything but the trace and
    the fault oracle. *)
Definition durable (s : State) :=
  (self s, fs_pid (world s), fs_last_active (world s), procs (world s),
   next_pid (world s), child_status (world s), now (world s), groups (world s)).

(** A file is afterwards absent, or holds what it held. *)
Definition only_removes (p : path) (s s' : State) : Prop :=
  file p (world s') = None \/ file p (world s') = file p (world s).

(** A file that is there is still there afterwards. *)
Definition never_removes (p : path) (s s' : State) : Prop :=
  file p (world s) <> None -> file p (world s') <> None.

(** A run that starts where [Path.exists()] works ends where it works. *)
Definition still_stat_ok (s s' : State) : Prop :=
  stat_ok s = true -> stat_ok s' = true.

(** A computation that returns whenever no [Path.exists()] is made to fail,
    whatever else is. *)
Definition returns_when_stat_ok {A : Type} (m : M A) : Prop :=
  forall s, stat_ok s = true -> exists a s', m s = (Ret a, s').

(** The end state the specification gives for every [stop]: no durable file,
    no handle on a live worker. *)
Definition stop_leaves_nothing : Prop :=
  forall s,
    worker_process (self s) = None ->
    fs_pid (world (snd (stop s))) = None /\
    fs_last_active (world (snd (stop s))) = None /\
    live_handle (snd (stop s)) = false.

(** Once set, the stop event stays set. *)
Definition stays_stopped (s s' : State) : Prop :=
  _stop_event (self s) = true -> _stop_event (self s') = true.

(** The trace only grows. *)
Definition trace_grows (s s' : State) : Prop :=
  forall e, In e (trace (world s)) -> In e (trace (world s')).

(** The configuration a manager was constructed with. *)
Definition settings (m : Manager) :=
  (command m, args m, enabled m, timeout m, check_interval m).

(** What the durable state says about the worker: the identity file is there,
    holds an identifier, and a probe of that identifier reaches a process. *)
Definition recorded_alive {py : PyBuiltins} (s : State) : bool :=
  match fs_pid (world s) with
  | Some txt =>
      match py_int txt with
      | Some n => kill_reaches (world s) n
      | None => false
      end
  | None => false
  end.

(** ** Further example states *)

(** The worker 4242 of [idle_world] does not exit within the bounded wait:
    the signal goes through, the wait times out. *)
Definition stubborn_state : State :=
  mkState (self idle_state) (with_oracle [None; Some TimeoutExpired] idle_world).

(** A manager that did not spawn the worker 4242 the identity file names. *)
Definition foreign_state : State :=
  mkState (__init__ example_config) idle_world.

(** A check interval that [time.sleep] refuses. *)
Definition hasty_config : Config :=
  mkConfig (Some (mkKeepAlive (Some true) (Some 2%float) (Some (-1)%float)))
           (Some "mcp-worker") (Some ["--stdio"]).

Definition hasty_state : State :=
  mkState (__init__ hasty_config) idle_world.

(** The skill directory cannot be searched: every [Path.exists()] under it
    fails with [PermissionError]. *)
Definition unsearchable_state : State :=
  mkState (self idle_state)
          (with_stat_errors (Some PermissionError) (Some PermissionError) idle_world).

(** The path of the identity file is within the system's limit and the
    longer path of the last-active file is not; the worker of the identity
    file is gone. *)
Definition overlong_state : State :=
  mkState (__init__ example_config)
          (with_stat_errors None (Some OSError) crashed_world).


(** A check interval of ten thousand million seconds. *)
Definition patient_config : Config :=
  mkConfig (Some (mkKeepAlive (Some true) (Some 2%float) (Some 10000000000%float)))
           (Some "mcp-worker") (Some ["--stdio"]).

Definition patient_state : State :=
  mkState (__init__ patient_config) idle_world.

(** A program that has not called [init_manager], and one whose manager is
    that of [idle_state]. *)
Definition fresh_program : Program := mkProgram None fresh_world.

Definition idle_program : Program := mkProgram (Some (self idle_state)) idle_world.

(** * The example builtins at work *)

Example decimal_int_ex : decimal_int " 4242
" = Some 4242 /\ decimal_int "-7" = Some (-7) /\ decimal_int "12x" = None
    /\ decimal_int "" = None.
Proof. repeat split; reflexivity. Qed.

Example decimal_str_ex : decimal_str 4242 = "4242" /\ decimal_str 0 = "0"
    /\ decimal_str (-15) = "-15" /\ decimal_str 1000 = "1000".
Proof. repeat split; reflexivity. Qed.

Example decimal_float_ex :
  decimal_float "100.0" = Some 100%float /\ decimal_float "abc" = None
  /\ str_float 103%float = "103.0".
Proof. repeat split; vm_compute; reflexivity. Qed.

(** * Facts about the monad *)

Lemma returns_ret {A : Type} (a : A) : returns (ret a).
Proof. intros s. exists a, s. reflexivity. Qed.

Lemma returns_gets {A : Type} (f : State -> A) : returns (gets f).
Proof. intros s. exists (f s), s. reflexivity. Qed.

Lemma returns_bind {A B : Type} (m : M A) (k : A -> M B) :
  returns m -> (forall a, returns (k a)) -> returns (bind m k).
Proof.
  intros Hm Hk s. unfold bind.
  destruct (Hm s) as (a & s1 & E). rewrite E. apply Hk.
Qed.

(** A bare [except:] whose handler cannot raise makes the whole statement
    unable to raise, whatever the body does. *)
Lemma returns_try_anything {A : Type} (body handler : M A) :
  returns handler -> returns (try_except anything body handler).
Proof.
  intros Hh s. unfold try_except.
  destruct (body s) as [[a | e] s1].
  - exists a, s1. reflexivity.
  - cbn. apply Hh.
Qed.

Lemma returns_for_each {A : Type} (xs : list A) (body : A -> M unit) :
  (forall x, returns (body x)) -> returns (for_each xs body).
Proof.
  intros Hb. induction xs as [| x rest IH]; cbn [for_each].
  - apply returns_ret.
  - apply returns_bind; [apply Hb | intros _; exact IH].
Qed.

#[export] Instance same_Frame {X : Type} (obs : State -> X) : Frame (same obs).
Proof.
  split; unfold same.
  - reflexivity.
  - intros a b c H1 H2. congruence.
Qed.

Section Keeps.

Context (R : State -> State -> Prop) {FR : Frame R}.

Lemma keeps_ret {A : Type} (a : A) : keeps R (ret a).
Proof. intros s. apply frame_refl. Qed.

Lemma keeps_raise {A : Type} (e : exn) : keeps R (@raise A e).
Proof. intros s. apply frame_refl. Qed.

Lemma keeps_gets {A : Type} (f : State -> A) : keeps R (gets f).
Proof. intros s. apply frame_refl. Qed.

Lemma keeps_bind {A B : Type} (m : M A) (k : A -> M B) :
  keeps R m -> (forall a, keeps R (k a)) -> keeps R (bind m k).
Proof.
  intros Hm Hk s. unfold bind.
  specialize (Hm s). destruct (m s) as [[a | e] s1]; cbn [snd] in *.
  - eapply frame_trans; [exact Hm | apply Hk].
  - exact Hm.
Qed.

Lemma keeps_try {A : Type} (c : exn -> bool) (body handler : M A) :
  keeps R body -> keeps R handler -> keeps R (try_except c body handler).
Proof.
  intros Hb Hh s. unfold try_except.
  specialize (Hb s). destruct (body s) as [[a | e] s1]; cbn [snd] in *.
  - exact Hb.
  - destruct (c e); cbn [snd].
    + eapply frame_trans; [exact Hb | apply Hh].
    + exact Hb.
Qed.

Lemma keeps_for_each {A : Type} (xs : list A) (body : A -> M unit) :
  (forall x, keeps R (body x)) -> keeps R (for_each xs body).
Proof.
  intros Hb. induction xs as [| x rest IH]; cbn [for_each].
  - apply keeps_ret.
  - apply keeps_bind; [apply Hb | intros _; exact IH].
Qed.

(** [sys] is not among the module's globals, so the [print] to the standard
    error stream raises before it writes and before anything after it runs. *)
Lemma print_stderr_raises (line : string) (s : State) :
  print_stderr line s = (Raise NameError, s).
Proof. reflexivity. Qed.

Lemma keeps_print (line : string) : keeps R (print_stderr line).
Proof. intros s. rewrite print_stderr_raises. apply frame_refl. Qed.

Lemma keeps_print_then {A : Type} (line : string) (k : M A) :
  keeps R (print_stderr line ;; k).
Proof.
  intros s. unfold bind. rewrite print_stderr_raises. apply frame_refl.
Qed.

End Keeps.

Ltac solve_frame :=
  match goal with
  | |- Frame _ => typeclasses eauto
  end.

(** Breaks a goal [keeps R m] down along the structure of [m], to the
    state updates at its leaves. *)
Ltac keeps_structure :=
  repeat first
    [ apply keeps_print_then; solve_frame
    | apply keeps_print; solve_frame
    | apply keeps_ret; solve_frame
    | apply keeps_raise; solve_frame
    | apply keeps_gets; solve_frame
    | apply keeps_bind; try solve_frame; [ | intros ? ]
    | apply keeps_try; try solve_frame
    | apply keeps_for_each; try solve_frame; intros ?
    | match goal with
      | |- keeps _ (if ?b then _ else _) => destruct b
      | |- keeps _ (match ?x with _ => _ end) => destruct x
      end
    | progress unfold read_text, write_text, to_int, to_float, open_r, f_read,
        open_w, f_write, unlink, os_kill, fallible, log, path_exists, time_time,
        set_process, Thread_join, Process_join, Process_terminate ].

(** The leaves: an update keeps an observation that does not look at what it
    updates. *)
Ltac keeps_leaves :=
  try solve
    [ intros [m w]; unfold same, fault, modify_world, modify_self;
      cbn; try destruct w; cbn;
      rewrite ?filter_app; cbn; rewrite ?app_nil_r; reflexivity ].

(** ** A run only consumes the fault oracle *)

#[export] Instance still_fault_free_Frame : Frame still_fault_free.
Proof.
  split; unfold still_fault_free.
  - auto.
  - intros a b c H1 H2 H. auto.
Qed.

Lemma keeps_ff_fault : keeps still_fault_free fault.
Proof.
  intros [m w]. unfold still_fault_free, fault_free, fault. cbn.
  destruct w as [fp fl ps gs np cs t o sp sl tr]. cbn.
  destruct o as [ | x o]; cbn; [auto | ].
  rewrite <- !andb_assoc.
  intros H. apply andb_true_iff in H. destruct H as [_ H]. exact H.
Qed.

Lemma keeps_ff_modify_world (f : World -> World) :
  (forall w, oracle (f w) = oracle w) ->
  (forall w, stat_pid (f w) = stat_pid w) ->
  (forall w, stat_last_active (f w) = stat_last_active w) ->
  keeps still_fault_free (modify_world f).
Proof.
  intros Hf Hg Hh [m w]. unfold still_fault_free, fault_free, modify_world. cbn.
  rewrite Hf, Hg, Hh. auto.
Qed.

Lemma keeps_ff_modify_self (f : Manager -> Manager) :
  keeps still_fault_free (modify_self f).
Proof. intros [m w]. unfold still_fault_free, fault_free, modify_self. cbn. auto. Qed.

Ltac ff_leaves :=
  try solve
    [ apply keeps_ff_fault
    | apply keeps_ff_modify_self
    | apply keeps_ff_modify_world; intros [];
      try match goal with p : path |- _ => destruct p end; reflexivity ].

(** The parts of [fault_free]. *)
Lemma fault_free_parts (s : State) :
  fault_free s = true ->
  forallb no_fault (oracle (world s)) = true /\ stat_ok s = true.
Proof.
  unfold fault_free, stat_ok. rewrite <- andb_assoc.
  intros H. apply andb_true_iff in H. exact H.
Qed.

(** ** Runs in which [Path.exists()] works *)

#[export] Instance still_stat_ok_Frame : Frame still_stat_ok.
Proof.
  split; unfold still_stat_ok.
  - auto.
  - intros a b c H1 H2 H. auto.
Qed.

Lemma keeps_sso_fault : keeps still_stat_ok fault.
Proof.
  intros [m w]. unfold still_stat_ok, stat_ok, fault. cbn.
  destruct w as [fp fl ps gs np cs t o sp sl tr]. cbn. auto.
Qed.

Lemma keeps_sso_modify_world (f : World -> World) :
  (forall w, stat_pid (f w) = stat_pid w) ->
  (forall w, stat_last_active (f w) = stat_last_active w) ->
  keeps still_stat_ok (modify_world f).
Proof.
  intros Hf Hg [m w]. unfold still_stat_ok, stat_ok, modify_world. cbn.
  rewrite Hf, Hg. auto.
Qed.

Lemma keeps_sso_modify_self (f : Manager -> Manager) :
  keeps still_stat_ok (modify_self f).
Proof. intros [m w]. unfold still_stat_ok, stat_ok, modify_self. cbn. auto. Qed.

Ltac sso_leaves :=
  try solve
    [ apply keeps_sso_fault
    | apply keeps_sso_modify_self
    | apply keeps_sso_modify_world; intros [];
      try match goal with p : path |- _ => destruct p end; reflexivity ].

Lemma rwso_returns {A} (m : M A) : returns m -> returns_when_stat_ok m.
Proof. intros H s _. apply H. Qed.

Lemma rwso_bind {A B} (m : M A) (k : A -> M B) :
  returns_when_stat_ok m ->
  keeps still_stat_ok m ->
  (forall a, returns_when_stat_ok (k a)) ->
  returns_when_stat_ok (bind m k).
Proof.
  intros Hm Hkeep Hk s Hs. unfold bind.
  generalize (Hkeep s Hs).
  destruct (Hm s Hs) as (a & s1 & E). rewrite E. cbn. intros Hs1.
  apply Hk. exact Hs1.
Qed.

Lemma rwso_try_anything {A} (body handler : M A) :
  keeps still_stat_ok body ->
  returns_when_stat_ok handler ->
  returns_when_stat_ok (try_except (fun _ => true) body handler).
Proof.
  intros Hkeep Hh s Hs. unfold try_except.
  generalize (Hkeep s Hs).
  destruct (body s) as [[a | e] s1]; cbn; intros Hs1.
  - eauto.
  - apply Hh. exact Hs1.
Qed.

Lemma rwso_for_each {A} (l : list A) (f : A -> M unit) :
  (forall a, returns_when_stat_ok (f a)) ->
  (forall a, keeps still_stat_ok (f a)) ->
  returns_when_stat_ok (for_each l f).
Proof.
  intros Hf Hkeep. induction l as [ | a l IH]; cbn [for_each].
  - apply rwso_returns, returns_ret.
  - apply rwso_bind; [apply Hf | apply Hkeep | intros _; exact IH].
Qed.

(** [Path.exists()] answers when [stat] works on the path, and raises the
    error of [stat] otherwise; either way it changes nothing. *)
Lemma path_exists_answers (p : path) (s : State) :
  stat_error p (world s) = None ->
  path_exists p s = (Ret (is_some (file p (world s))), s).
Proof. intros H. unfold path_exists, bind, gets. rewrite H. reflexivity. Qed.

Lemma path_exists_raises (p : path) (e : exn) (s : State) :
  stat_error p (world s) = Some e ->
  path_exists p s = (Raise e, s).
Proof. intros H. unfold path_exists, bind, gets, raise. rewrite H. reflexivity. Qed.

Lemma stat_ok_path (p : path) (s : State) :
  stat_ok s = true -> stat_error p (world s) = None.
Proof.
  unfold stat_ok, stat_error.
  destruct (stat_pid (world s)), (stat_last_active (world s)), p; cbn;
    intros H; try discriminate; reflexivity.
Qed.

Lemma rwso_path_exists (p : path) : returns_when_stat_ok (path_exists p).
Proof.
  intros s Hs. rewrite (path_exists_answers p s (stat_ok_path p s Hs)). eauto.
Qed.

Lemma keeps_sso_path_exists (p : path) : keeps still_stat_ok (path_exists p).
Proof. unfold path_exists. keeps_structure; sso_leaves. Qed.

(** * Facts about the methods *)

Section MethodFacts.

Context {py : PyBuiltins}.

(** ** What a method leaves alone *)

Lemma is_process_alive_keeps_self : keeps (same self) is_process_alive.
Proof. unfold is_process_alive. keeps_structure; keeps_leaves. Qed.

Lemma is_process_alive_keeps_files :
  keeps (same (fun s => (fs_pid (world s), fs_last_active (world s)))) is_process_alive.
Proof. unfold is_process_alive. keeps_structure; keeps_leaves. Qed.

Lemma is_process_alive_keeps_signals : keeps (same signals) is_process_alive.
Proof. unfold is_process_alive. keeps_structure; keeps_leaves. Qed.

Lemma is_process_alive_keeps_spawns : keeps (same spawns) is_process_alive.
Proof. unfold is_process_alive. keeps_structure; keeps_leaves. Qed.

Lemma _cleanup_files_keeps_self : keeps (same self) _cleanup_files.
Proof. unfold _cleanup_files. keeps_structure; keeps_leaves. Qed.

Lemma _cleanup_files_keeps_signals : keeps (same signals) _cleanup_files.
Proof. unfold _cleanup_files. keeps_structure; keeps_leaves. Qed.

Lemma _cleanup_files_keeps_spawns : keeps (same spawns) _cleanup_files.
Proof. unfold _cleanup_files. keeps_structure; keeps_leaves. Qed.

Lemma _terminate_process_keeps_self : keeps (same self) _terminate_process.
Proof.
  unfold _terminate_process.
  apply keeps_bind; try solve_frame; [ | intros present].
  - keeps_structure; keeps_leaves.
  - apply keeps_bind; try solve_frame; [ | intros _; apply _cleanup_files_keeps_self].
    keeps_structure; keeps_leaves.
Qed.


(** [_check_timeout] changes nothing: in the one branch that would terminate
    the worker, the [print] before [_terminate_process] raises [NameError], and
    the bare [except] of [_check_timeout] swallows it. *)
Lemma _check_timeout_keeps_all : keeps (same but_oracle) _check_timeout.
Proof. unfold _check_timeout. keeps_structure; keeps_leaves. Qed.

Lemma is_process_alive_keeps_sso : keeps still_stat_ok is_process_alive.
Proof. unfold is_process_alive. keeps_structure; sso_leaves. Qed.

Lemma _check_timeout_keeps_sso : keeps still_stat_ok _check_timeout.
Proof. unfold _check_timeout. keeps_structure; sso_leaves. Qed.

Lemma _cleanup_files_keeps_sso : keeps still_stat_ok _cleanup_files.
Proof. unfold _cleanup_files. keeps_structure; sso_leaves. Qed.

Lemma is_process_alive_returns : returns_when_stat_ok is_process_alive.
Proof.
  unfold is_process_alive.
  apply rwso_bind;
    [apply rwso_path_exists | apply keeps_sso_path_exists | intros present].
  destruct (negb present); [apply rwso_returns, returns_ret | ].
  apply rwso_try_anything; [ | apply rwso_returns, returns_ret].
  keeps_structure; sso_leaves.
Qed.

Lemma _check_timeout_returns : returns_when_stat_ok _check_timeout.
Proof.
  unfold _check_timeout.
  apply rwso_bind;
    [apply rwso_path_exists | apply keeps_sso_path_exists | intros present].
  destruct (negb present); [apply rwso_returns, returns_ret | ].
  apply rwso_try_anything; [ | apply rwso_returns, returns_ret].
  keeps_structure; sso_leaves.
Qed.

Lemma _cleanup_files_returns : returns_when_stat_ok _cleanup_files.
Proof.
  unfold _cleanup_files. apply rwso_for_each; intros f.
  - apply rwso_bind;
      [apply rwso_path_exists | apply keeps_sso_path_exists | intros present].
    destruct present; [ | apply rwso_returns, returns_ret].
    apply rwso_try_anything; [ | apply rwso_returns, returns_ret].
    keeps_structure; sso_leaves.
  - keeps_structure; sso_leaves.
Qed.

Lemma monitor_tick_keeps_sso : keeps still_stat_ok monitor_tick.
Proof.
  unfold monitor_tick.
  apply keeps_bind; try solve_frame; [apply is_process_alive_keeps_sso | intros alive].
  destruct alive; [apply _check_timeout_keeps_sso | apply _cleanup_files_keeps_sso].
Qed.

Lemma monitor_tick_returns : returns_when_stat_ok monitor_tick.
Proof.
  unfold monitor_tick.
  apply rwso_bind;
    [apply is_process_alive_returns | apply is_process_alive_keeps_sso | intros alive].
  destruct alive; [apply _check_timeout_returns | apply _cleanup_files_returns].
Qed.

Lemma monitor_tick_keeps_self : keeps (same self) monitor_tick.
Proof.
  unfold monitor_tick.
  apply keeps_bind; try solve_frame; [apply is_process_alive_keeps_self | intros alive].
  destruct alive; [ | apply _cleanup_files_keeps_self].
  intros s. generalize (_check_timeout_keeps_all s). unfold same, but_oracle.
  congruence.
Qed.



Lemma time_sleep_returns (secs : float) (s : State) :
  sleep_error secs = None ->
  time_sleep secs s
  = (Ret tt, mkState (self s) (with_now (PrimFloat.add (now (world s)) secs) (world s))).
Proof. intros H. unfold time_sleep. rewrite H. reflexivity. Qed.

Lemma time_sleep_raises (secs : float) (e : exn) (s : State) :
  sleep_error secs = Some e ->
  time_sleep secs s = (Raise e, s).
Proof. intros H. unfold time_sleep. rewrite H. reflexivity. Qed.

Lemma monitor_tick_total (s : State) :
  stat_ok s = true ->
  exists s', monitor_tick s = (Ret tt, s') /\ self s' = self s /\ stat_ok s' = true.
Proof.
  intros Hs.
  destruct (monitor_tick_returns s Hs) as ([] & s' & E).
  exists s'. split; [exact E | ]. split.
  - generalize (monitor_tick_keeps_self s). rewrite E. unfold same. cbn. auto.
  - generalize (monitor_tick_keeps_sso s Hs). rewrite E. cbn. auto.
Qed.

(** C9, as the code has it.  Take a state in which [Path.exists()] works on
    both paths.  Then a tick of [_monitor_loop] never raises, whatever the
    files hold and whichever of its other calls fail (open, read, parse,
    probe, unlink): it returns and leaves the manager's fields, the stop
    event among them, as they were.  With a check interval that [time.sleep]
    accepts, no number of iterations ends the loop by an exception, and while
    the stop event is clear the loop is still running after each of them. *)
Theorem monitor_loop_survives_ticks (s : State) :
  stat_ok s = true ->
  (exists s', monitor_tick s = (Ret tt, s') /\ self s' = self s) /\
  (forall fuel : nat,
     sleep_error (check_interval (self s)) = None ->
     exists r s',
       _monitor_loop fuel s = (Ret r, s') /\
       (_stop_event (self s) = false -> r = LoopRunning)).
Proof.
  intros Hs. split.
  { destruct (monitor_tick_total s Hs) as (s' & E & Hself & _). eauto. }
  intros fuel. revert s Hs.
  induction fuel as [ | fuel IH]; intros s Hs Hsecs.
  - exists LoopRunning, s. split; [reflexivity | auto].
  - cbn [_monitor_loop]. unfold bind at 1. unfold gets at 1.
    destruct (_stop_event (self s)) eqn:Hstop.
    + exists LoopReturned, s. split; [reflexivity | discriminate].
    + destruct (monitor_tick_total s Hs) as (s1 & E1 & Hself1 & Hs1).
      unfold bind at 1. rewrite E1.
      unfold bind at 1. unfold gets at 1.
      unfold bind at 1. rewrite Hself1.
      rewrite (time_sleep_returns _ _ Hsecs).
      set (s2 := mkState _ _).
      assert (Hself2 : self s2 = self s) by (unfold s2; cbn; exact Hself1).
      assert (Hs2 : stat_ok s2 = true) by (unfold s2, stat_ok; cbn;
        destruct s1 as [m1 [fp fl ps gs np cs t o sp sl tr]]; exact Hs1).
      destruct (IH s2 Hs2) as (r & s' & E & Hr).
      { rewrite Hself2. exact Hsecs. }
      exists r, s'. split; [exact E | ].
      intros _. apply Hr. rewrite Hself2. exact Hstop.
Qed.

Lemma is_process_alive_keeps_ff : keeps still_fault_free is_process_alive.
Proof. unfold is_process_alive. keeps_structure; ff_leaves. Qed.

(** Without faults, the next fallible call goes through. *)
Lemma fallible_fault_free (s : State) :
  fault_free s = true ->
  fallible s
  = (Ret tt, mkState (self s) (with_oracle (tl (oracle (world s))) (world s))).
Proof.
  destruct s as [m w]. destruct w as [fp fl ps gs np cs t o sp sl tr].
  unfold fault_free, fallible, fault, bind. cbn.
  destruct o as [ | [e | ] o]; cbn; intros H; try discriminate; reflexivity.
Qed.

(** ** The disabled manager *)

Lemma init_enabled (config : Config) (ka : KeepAlive) (b : bool) :
  cfg_keep_alive config = Some ka ->
  ka_enabled ka = Some b ->
  enabled (__init__ config) = b.
Proof. intros H1 H2. unfold __init__. rewrite H1. cbn. rewrite H2. reflexivity. Qed.

(** C3. Under a configuration with [keep_alive.enabled] false the manager is
    disabled, and on a disabled manager [start], [get_process] and
    [update_heartbeat] return without raising ([get_process] with [None]) and
    leave the whole state as it was: no child is spawned, no thread started,
    and neither durable file is created. *)
Theorem disabled_manager_does_nothing (config : Config) (ka : KeepAlive) :
  cfg_keep_alive config = Some ka ->
  ka_enabled ka = Some false ->
  enabled (__init__ config) = false /\
  forall s : State,
    enabled (self s) = false ->
    start s = (Ret tt, s) /\
    get_process s = (Ret None, s) /\
    update_heartbeat s = (Ret tt, s).
Proof.
  intros Hka Hen. split; [exact (init_enabled _ _ _ Hka Hen) | ].
  intros s Hs.
  unfold start, get_process, update_heartbeat, bind, gets.
  rewrite Hs. cbn. auto.
Qed.

(** ** The heartbeat *)

Lemma update_heartbeat_enabled (s : State) :
  enabled (self s) = true ->
  forallb no_fault (firstn 2 (oracle (world s))) = true ->
  exists s',
    update_heartbeat s = (Ret tt, s') /\
    fs_last_active (world s') = Some (str_float (now (world s))) /\
    fs_pid (world s') = fs_pid (world s) /\
    self s' = self s /\
    trace (world s') = trace (world s).
Proof.
  destruct s as [m w]. destruct w as [fp fl ps gs np cs t o sp sl tr]. cbn.
  intros Hen Ho.
  unfold update_heartbeat, write_text, open_w, f_write, time_time, fallible,
    fault, modify_world, bind, gets, ret, raise.
  cbn. rewrite Hen. cbn.
  destruct o as [ | [e1 | ] [ | [e2 | ] o2]]; cbn in Ho; try discriminate Ho; cbn;
    eexists; repeat split; reflexivity.
Qed.

(** C10. On an enabled manager [update_heartbeat] looks at neither the
    identity file nor the worker: whenever the last-active file can be opened
    and written, it ends up holding the current time, and the identity file,
    the manager's fields and the trace stay as they were.  In particular a
    last-active file is left behind where no identity file and no worker
    exist. *)
Theorem update_heartbeat_writes_unconditionally (s : State) :
  enabled (self s) = true ->
  forallb no_fault (firstn 2 (oracle (world s))) = true ->
  exists s',
    update_heartbeat s = (Ret tt, s') /\
    fs_last_active (world s') = Some (str_float (now (world s))) /\
    fs_pid (world s') = fs_pid (world s) /\
    self s' = self s /\
    trace (world s') = trace (world s) /\
    (fs_pid (world s) = None -> process (self s) = None ->
     fs_pid (world s') = None /\ process (self s') = None /\
     fs_last_active (world s') <> None).
Proof.
  intros Hen Ho.
  destruct (update_heartbeat_enabled s Hen Ho) as (s' & E & Hl & Hp & Hs & Ht).
  exists s'. do 5 (split; [assumption | ]).
  intros Hnone Hproc. split; [ | split].
  - rewrite Hp. exact Hnone.
  - rewrite Hs. exact Hproc.
  - rewrite Hl. discriminate.
Qed.

(** ** Reconciliation *)

Lemma monitor_tick_not_alive (s : State) :
  fst (is_process_alive s) = Ret false ->
  monitor_tick s = _cleanup_files (snd (is_process_alive s)).
Proof.
  unfold monitor_tick, bind.
  destruct (is_process_alive s) as [r s1]. cbn. intros ->. reflexivity.
Qed.

Lemma monitor_tick_alive (s : State) :
  fst (is_process_alive s) = Ret true ->
  monitor_tick s = _check_timeout (snd (is_process_alive s)).
Proof.
  unfold monitor_tick, bind.
  destruct (is_process_alive s) as [r s1]. cbn. intros ->. reflexivity.
Qed.

(** When its two [unlink] calls are let through, [_cleanup_files] leaves
    neither file. *)
Lemma _cleanup_files_clears (s : State) :
  fault_free s = true ->
  fs_pid (world (snd (_cleanup_files s))) = None /\
  fs_last_active (world (snd (_cleanup_files s))) = None.
Proof.
  destruct s as [m w]. destruct w as [fp fl ps gs np cs t o sp sl tr].
  unfold fault_free. cbn. intros H.
  apply andb_true_iff in H. destruct H as [H Hsl].
  apply andb_true_iff in H. destruct H as [Ho Hsp].
  destruct sp; [discriminate Hsp | ]. destruct sl; [discriminate Hsl | ].
  unfold _cleanup_files, for_each, unlink, path_exists, fallible,
    fault, modify_world, try_except, bind, gets, ret, raise.
  destruct fp, fl; cbn;
    destruct o as [ | [e1 | ] [ | [e2 | ] o2]]; cbn in Ho; try discriminate Ho;
    cbn; split; reflexivity.
Qed.

(** No tick sends a signal: the liveness test only probes, the cleanup only
    removes files, and [_check_timeout] never gets to [_terminate_process]. *)
Lemma monitor_tick_keeps_signals : keeps (same signals) monitor_tick.
Proof.
  unfold monitor_tick.
  apply keeps_bind; try solve_frame; [apply is_process_alive_keeps_signals | intros alive].
  destruct alive; [ | apply _cleanup_files_keeps_signals].
  intros s. generalize (_check_timeout_keeps_all s). unfold same, but_oracle, signals.
  congruence.
Qed.

(** C4. A tick on which [is_process_alive] answers [False] sends no signal
    (the trace gains at most the probe of the liveness test); it returns when
    the [exists()] tests of the cleanup go through; and, no call of the
    cleanup being made to fail, it leaves neither the identity file nor the
    last-active file. *)
Theorem tick_reconciles_dead_worker (s : State) :
  fst (is_process_alive s) = Ret false ->
  (stat_ok (snd (is_process_alive s)) = true -> fst (monitor_tick s) = Ret tt) /\
  signals (snd (monitor_tick s)) = signals s /\
  (fault_free (snd (is_process_alive s)) = true ->
   fs_pid (world (snd (monitor_tick s))) = None /\
   fs_last_active (world (snd (monitor_tick s))) = None).
Proof.
  intros Hdead. split; [ | split].
  - intros Hs. rewrite (monitor_tick_not_alive s Hdead).
    destruct (_cleanup_files_returns _ Hs) as ([] & s' & E). rewrite E. reflexivity.
  - apply monitor_tick_keeps_signals.
  - intros Hff. rewrite (monitor_tick_not_alive s Hdead).
    apply _cleanup_files_clears. exact Hff.
Qed.

End MethodFacts.

Section ShutdownFacts.

Context {py : PyBuiltins}.

(** ** Shutdown *)

Lemma Popen_poll_keeps_handle : keeps (same handle_pid) Popen_poll.
Proof.
  intros [m w]. destruct m as [cmd ar en tmo ci pr wp se mt].
  unfold same, handle_pid, Popen_poll, set_process, modify_self,
    bind, gets, ret, raise. cbn.
  destruct pr as [[p [c | ]] | ]; cbn; try reflexivity.
  destruct (mem p (procs w)); reflexivity.
Qed.

Lemma Popen_terminate_keeps_handle : keeps (same handle_pid) Popen_terminate.
Proof.
  unfold Popen_terminate.
  apply keeps_bind; try solve_frame; [apply Popen_poll_keeps_handle | intros rc].
  keeps_structure; keeps_leaves.
Qed.

Lemma Popen_wait_keeps_handle (secs : float) : keeps (same handle_pid) (Popen_wait secs).
Proof.
  intros [m w]. destruct m as [cmd ar en tmo ci pr wp se mt].
  destruct w as [fp fl ps gs np cs t o sp sl tr].
  unfold same, handle_pid, Popen_wait, set_process, modify_self,
    modify_world, fallible, fault, bind, gets, ret, raise. cbn.
  destruct pr as [[p [c | ]] | ]; cbn; try reflexivity.
  destruct o as [ | [e | ] o]; reflexivity.
Qed.

Lemma _cleanup_files_keeps_handle : keeps (same handle_pid) _cleanup_files.
Proof. unfold _cleanup_files. keeps_structure; keeps_leaves. Qed.

(** [stop] never assigns [self.process]: the handle it had is the handle it
    has afterwards, whether [stop] returned or raised. *)
Lemma stop_keeps_handle : keeps (same handle_pid) stop.
Proof.
  unfold stop.
  apply keeps_bind; try solve_frame; [keeps_leaves | intros _].
  apply keeps_bind; try solve_frame; [keeps_structure | intros th].
  apply keeps_bind; try solve_frame; [keeps_structure; keeps_leaves | intros _].
  apply keeps_bind; try solve_frame; [keeps_structure | intros wp].
  apply keeps_bind; try solve_frame; [keeps_structure; keeps_leaves | intros _].
  apply keeps_bind; try solve_frame; [keeps_structure | intros h].
  apply keeps_bind; try solve_frame; [ | intros _; apply _cleanup_files_keeps_handle].
  destruct h as [p | ]; [ | keeps_structure].
  apply keeps_bind; try solve_frame; [apply Popen_terminate_keeps_handle | intros _].
  apply keeps_bind; try solve_frame; [apply Popen_wait_keeps_handle | intros _].
  keeps_structure.
Qed.

(** What one [stop] does when nothing is made to fail. *)
Lemma stop_fault_free (s : State) :
  fault_free s = true ->
  exists s1,
    stop s = (Ret tt, s1) /\
    _stop_event (self s1) = true /\
    worker_process (self s1) = worker_process (self s) /\
    live_handle s1 = false /\
    fs_pid (world s1) = None /\
    fs_last_active (world s1) = None /\
    stat_ok s1 = true.
Proof.
  destruct s as [m w]. destruct w as [fp fl ps gs np cs t o sp sl tr].
  destruct m as [cmd ar en tmo ci pr wp se mt].
  unfold fault_free, live_handle, stat_ok. cbn. intros H.
  apply andb_true_iff in H. destruct H as [H Hsl].
  apply andb_true_iff in H. destruct H as [Ho Hsp].
  destruct sp; [discriminate Hsp | ]. destruct sl; [discriminate Hsl | ].
  destruct wp as [wk | ];
    [destruct (kill_reaches (mkWorld fp fl ps gs np cs t o None None tr) wk) eqn:Hw;
     unfold kill_reaches in Hw; cbn in Hw | ].
  all: unfold stop, Popen_terminate, Popen_poll, Popen_wait, Thread_join,
    Process_terminate, Process_join,
    _cleanup_files, for_each, unlink, os_kill, log, set_process, path_exists,
    kill_reaches,
    fallible, fault, modify_world, modify_self, try_except, bind, gets, ret, raise.
  all: destruct pr as [[p [c | ]] | ]; cbn;
     try (destruct (mem p ps) eqn:Hm; cbn);
     destruct mt; cbn;
     destruct fp, fl; cbn;
     destruct o as [ | [e1 | ] [ | [e2 | ] [ | [e3 | ] [ | [e4 | ] [ | [e5 | ] o5]]]]];
     cbn in Ho; try discriminate Ho;
     repeat (progress (cbn; rewrite ?Hm, ?Hw));
     eexists; repeat split; reflexivity.
Qed.

(** A [stop] on a manager that is already stopped changes nothing. *)
Lemma stop_again (s : State) :
  _stop_event (self s) = true ->
  worker_process (self s) = None ->
  live_handle s = false ->
  fs_pid (world s) = None ->
  fs_last_active (world s) = None ->
  stat_ok s = true ->
  stop s = (Ret tt, s).
Proof.
  destruct s as [m w]. destruct w as [fp fl ps gs np cs t o sp sl tr].
  destruct m as [cmd ar en tmo ci pr wp se mt].
  unfold live_handle, stat_ok. cbn. intros -> -> Hlive -> -> Hs.
  destruct sp; [discriminate Hs | ]. destruct sl; [discriminate Hs | ].
  unfold stop, Popen_terminate, Popen_poll, Popen_wait, Thread_join,
    _cleanup_files, for_each, path_exists, modify_self, bind, gets, ret, raise.
  destruct pr as [[p [c | ]] | ]; cbn in *; try discriminate Hlive;
    destruct mt; reflexivity.
Qed.

Lemma mem_filter_out (c : Z) (ps : list Z) :
  mem c (filter (fun q => negb (Z.eqb q c)) ps) = false.
Proof.
  unfold mem. induction ps as [ | q ps IH]; cbn; [reflexivity | ].
  destruct (Z.eqb q c) eqn:E; cbn; [exact IH | ].
  rewrite Z.eqb_sym, E. cbn. exact IH.
Qed.

(** What [stop] does to a worker it holds and that is running, when nothing
    is made to fail. *)
Lemma stop_live_handle (s : State) (c : Z) :
  fault_free s = true ->
  worker_process (self s) = None ->
  process (self s) = Some (mkPopen c None) ->
  mem c (procs (world s)) = true ->
  exists s1,
    stop s = (Ret tt, s1) /\
    signals s1 = (signals s ++ [SysKill c SIGTERM])%list /\
    mem c (procs (world s1)) = false /\
    fs_pid (world s1) = None /\
    fs_last_active (world s1) = None.
Proof.
  destruct s as [m w]. destruct w as [fp fl ps gs np cs t o sp sl tr].
  destruct m as [cmd ar en tmo ci pr wp se mt].
  unfold fault_free, signals. cbn. intros H -> -> Hm.
  apply andb_true_iff in H. destruct H as [H Hsl].
  apply andb_true_iff in H. destruct H as [Ho Hsp].
  destruct sp; [discriminate Hsp | ]. destruct sl; [discriminate Hsl | ].
  unfold stop, Popen_terminate, Popen_poll, Popen_wait, Thread_join,
    _cleanup_files, for_each, unlink, os_kill, log, set_process, path_exists,
    kill_reaches,
    fallible, fault, modify_world, modify_self, try_except, bind, gets, ret, raise.
  destruct mt; destruct fp, fl;
    destruct o as [ | [e1 | ] [ | [e2 | ] [ | [e3 | ] [ | [e4 | ] o4]]]];
    cbn in Ho; try discriminate Ho;
    repeat (progress (cbn; rewrite ?Hm));
    eexists; (split; [reflexivity | ]); cbn;
    rewrite filter_app, mem_filter_out; cbn; repeat split; reflexivity.
Qed.

(** What [stop] does when the worker it holds is still running at the end of
    the bounded wait, or the wait fails otherwise: it has sent the one
    [SIGTERM], and the error of the wait ends it before the cleanup. *)
Lemma stop_wait_raises (s : State) (c : Z) (e : exn) (rest : list (option exn)) :
  worker_process (self s) = None ->
  process (self s) = Some (mkPopen c None) ->
  mem c (procs (world s)) = true ->
  oracle (world s) = None :: Some e :: rest ->
  exists s',
    stop s = (Raise e, s') /\
    signals s' = (signals s ++ [SysKill c SIGTERM])%list /\
    fs_pid (world s') = fs_pid (world s) /\
    fs_last_active (world s') = fs_last_active (world s) /\
    procs (world s') = procs (world s) /\
    live_handle s' = true.
Proof.
  destruct s as [m w]. destruct w as [fp fl ps gs np cs t o sp sl tr].
  destruct m as [cmd ar en tmo ci pr wp se mt].
  unfold signals, live_handle. cbn. intros -> -> Hm ->.
  unfold stop, Popen_terminate, Popen_poll, Popen_wait, Thread_join,
    os_kill, log, set_process, kill_reaches,
    fallible, fault, modify_world, modify_self, try_except, bind, gets, ret, raise.
  destruct mt;
    repeat (progress (cbn; rewrite ?Hm));
    eexists; (split; [reflexivity | ]); cbn;
    rewrite filter_app; cbn; repeat split; reflexivity.
Qed.

(** C8, as the code has it.  Take a manager whose [worker_process] is unset
    (no method sets it).  With nothing made to fail (the worker, if the
    manager holds one, exits within the bounded wait), [stop] returns and
    leaves no durable file and no handle on a live worker, having sent
    [SIGTERM] once to a worker it held and that was running, which is gone
    from the process table; a second [stop] on that state returns and changes
    nothing, so two calls end where one call ends.  When the wait for a
    running worker fails instead (the worker outlasts it), [stop] has sent
    the one [SIGTERM] and raises the error of the wait before the cleanup:
    both files are as they were and the handle is still one on a live
    worker. *)
Theorem stop_is_idempotent (s : State) :
  worker_process (self s) = None ->
  (fault_free s = true ->
   exists s1,
     stop s = (Ret tt, s1) /\
     stop s1 = (Ret tt, s1) /\
     (stop ;; stop) s = stop s /\
     fs_pid (world s1) = None /\
     fs_last_active (world s1) = None /\
     live_handle s1 = false /\
     (forall c,
        process (self s) = Some (mkPopen c None) ->
        mem c (procs (world s)) = true ->
        signals s1 = (signals s ++ [SysKill c SIGTERM])%list /\
        mem c (procs (world s1)) = false)) /\
  (forall c e rest,
     process (self s) = Some (mkPopen c None) ->
     mem c (procs (world s)) = true ->
     oracle (world s) = None :: Some e :: rest ->
     exists s',
       stop s = (Raise e, s') /\
       signals s' = (signals s ++ [SysKill c SIGTERM])%list /\
       fs_pid (world s') = fs_pid (world s) /\
       fs_last_active (world s') = fs_last_active (world s) /\
       live_handle s' = true).
Proof.
  intros Hwp. split.
  - intros Hff.
    destruct (stop_fault_free s Hff) as (s1 & E & Hse & Hwp1 & Hlive & Hp & Hl & Hs1).
    rewrite Hwp in Hwp1.
    assert (E2 : stop s1 = (Ret tt, s1)) by (apply stop_again; assumption).
    exists s1. do 2 (split; [assumption | ]).
    split; [unfold bind; rewrite E, E2; reflexivity | ].
    do 3 (split; [assumption | ]).
    intros c Hpr Hm.
    destruct (stop_live_handle s c Hff Hwp Hpr Hm) as (s2 & E' & Hsig & Hgone & _).
    rewrite E in E'. injection E' as <-. auto.
  - intros c e rest Hpr Hm Ho.
    destruct (stop_wait_raises s c e rest Hwp Hpr Hm Ho)
      as (s' & E & Hsig & Hp & Hl & _ & Hlive).
    exists s'. auto.
Qed.

(** ** The handle and the record *)

Lemma _terminate_process_ends_in_cleanup (s : State) :
  stat_error pid_file (world s) = None ->
  exists s1,
    _terminate_process s = _cleanup_files s1 /\
    (fault_free s = true -> fault_free s1 = true).
Proof.
  intros Hstat.
  set (signal_it := if is_some (file pid_file (world s))
                    then try_except anything
                           (txt <- read_text pid_file ;;
                            pid <- to_int txt ;;
                            os_kill pid SIGTERM)
                           (ret tt)
                    else ret tt).
  assert (Hret : returns signal_it).
  { unfold signal_it. destruct (is_some _);
      [apply returns_try_anything, returns_ret | apply returns_ret]. }
  assert (Hkeep : keeps still_fault_free signal_it).
  { unfold signal_it. keeps_structure; ff_leaves. }
  assert (E0 : _terminate_process s = (signal_it ;; _cleanup_files) s).
  { unfold _terminate_process, bind at 1.
    rewrite (path_exists_answers _ _ Hstat). reflexivity. }
  destruct (Hret s) as ([] & s1 & E).
  exists s1. split.
  - rewrite E0. unfold bind. rewrite E. reflexivity.
  - generalize (Hkeep s). rewrite E. unfold still_fault_free. cbn. auto.
Qed.

Lemma _terminate_process_clears (s : State) :
  fault_free s = true ->
  fs_pid (world (snd (_terminate_process s))) = None /\
  fs_last_active (world (snd (_terminate_process s))) = None.
Proof.
  intros Hff.
  assert (Hstat : stat_error pid_file (world s) = None).
  { apply stat_ok_path. apply (fault_free_parts s Hff). }
  destruct (_terminate_process_ends_in_cleanup s Hstat) as (s1 & E & Hff1).
  rewrite E. apply _cleanup_files_clears. auto.
Qed.

(** C7, as the code has it.  Reconciliation, the termination on idle timeout
    and [stop] clear the durable record only: after each of them the manager
    holds the handle it held before (a handle on the same process, or none if
    it held none), whether the run returned or raised; and with nothing made
    to fail both durable files are gone. *)
Theorem handle_survives_record (s : State) :
  handle_pid (snd (monitor_tick s)) = handle_pid s /\
  handle_pid (snd (_terminate_process s)) = handle_pid s /\
  handle_pid (snd (stop s)) = handle_pid s /\
  (fault_free s = true ->
   (fst (is_process_alive s) = Ret false ->
    fs_pid (world (snd (monitor_tick s))) = None /\
    fs_last_active (world (snd (monitor_tick s))) = None) /\
   (fs_pid (world (snd (_terminate_process s))) = None /\
    fs_last_active (world (snd (_terminate_process s))) = None) /\
   (fs_pid (world (snd (stop s))) = None /\
    fs_last_active (world (snd (stop s))) = None)).
Proof.
  split; [ | split; [ | split]].
  - unfold handle_pid. rewrite (monitor_tick_keeps_self s). reflexivity.
  - unfold handle_pid. rewrite (_terminate_process_keeps_self s). reflexivity.
  - apply stop_keeps_handle.
  - intros Hff. split; [ | split].
    + intros Hdead. rewrite (monitor_tick_not_alive s Hdead).
      apply _cleanup_files_clears. apply (is_process_alive_keeps_ff s Hff).
    + apply _terminate_process_clears. exact Hff.
    + destruct (stop_fault_free s Hff) as (s1 & E & _ & _ & _ & Hp & Hl & _).
      rewrite E. cbn. auto.
Qed.

(** [worker_process] is set to [None] by [__init__] and assigned by no
    method. *)
Lemma worker_process_never_assigned :
  (forall config, worker_process (__init__ config) = None) /\
  keeps (same (fun s => worker_process (self s))) start /\
  keeps (same (fun s => worker_process (self s))) stop /\
  keeps (same (fun s => worker_process (self s))) get_process /\
  keeps (same (fun s => worker_process (self s))) update_heartbeat /\
  keeps (same (fun s => worker_process (self s))) monitor_tick.
Proof.
  assert (Hpoll : keeps (same (fun s => worker_process (self s))) Popen_poll).
  { unfold Popen_poll. keeps_structure; keeps_leaves. }
  assert (Halive : keeps (same (fun s => worker_process (self s))) is_process_alive).
  { unfold is_process_alive. keeps_structure; keeps_leaves. }
  assert (Hclean : keeps (same (fun s => worker_process (self s))) _cleanup_files).
  { unfold _cleanup_files. keeps_structure; keeps_leaves. }
  assert (Hbeat : keeps (same (fun s => worker_process (self s))) update_heartbeat).
  { unfold update_heartbeat. keeps_structure; keeps_leaves. }
  assert (Hworker : keeps (same (fun s => worker_process (self s))) _start_worker).
  { unfold _start_worker.
    apply keeps_bind; try solve_frame; [exact Halive | intros alive].
    destruct alive; [keeps_structure | ].
    unfold subprocess_Popen.
    repeat (apply keeps_bind; try solve_frame;
            [first [exact Hbeat | keeps_structure; keeps_leaves] | intros ? ]).
    keeps_structure; keeps_leaves. }
  repeat split.
  - unfold start, _start_monitor.
    apply keeps_bind; try solve_frame; [keeps_structure | intros en].
    destruct (negb en); [keeps_structure | ].
    apply keeps_bind; try solve_frame; [keeps_structure; keeps_leaves | intros _].
    exact Hworker.
  - unfold stop, Popen_terminate, Popen_wait.
    repeat (apply keeps_bind; try solve_frame;
            [first [exact Hpoll | keeps_structure; keeps_leaves] | intros ? ]).
    keeps_structure; keeps_leaves.
  - unfold get_process.
    apply keeps_bind; try solve_frame; [keeps_structure | intros en].
    destruct (negb en); [keeps_structure | ].
    apply keeps_bind; try solve_frame; [exact Halive | intros alive].
    apply keeps_bind; try solve_frame; [ | intros _; keeps_structure].
    destruct (negb alive); [exact Hworker | exact Hbeat].
  - exact Hbeat.
  - unfold monitor_tick.
    apply keeps_bind; try solve_frame; [exact Halive | intros alive].
    destruct alive; [ | exact Hclean].
    intros s. generalize (_check_timeout_keeps_all s). unfold same, but_oracle.
    congruence.
Qed.

(** ** The idle timeout *)

(** On a tick that finds the worker alive nothing happens after the liveness
    test, however long the worker has been idle: files, processes, trace and
    fields are those the test left. *)
Lemma monitor_tick_alive_is_inert (s : State) :
  fst (is_process_alive s) = Ret true ->
  but_oracle (snd (monitor_tick s)) = but_oracle (snd (is_process_alive s)) /\
  (stat_ok s = true -> fst (monitor_tick s) = Ret tt).
Proof.
  intros Halive. split.
  - rewrite (monitor_tick_alive s Halive). apply _check_timeout_keeps_all.
  - intros Hs. destruct (monitor_tick_returns s Hs) as ([] & s' & E).
    rewrite E. reflexivity.
Qed.

(** ** Getting the worker *)

(** The branch of [get_process] for a worker that is alive: no spawn, the
    identity file untouched, the heartbeat written, [self.process] returned. *)
Lemma get_process_reuses_live_worker (s : State) :
  enabled (self s) = true ->
  fst (is_process_alive s) = Ret true ->
  forallb no_fault (firstn 2 (oracle (world (snd (is_process_alive s))))) = true ->
  exists s',
    get_process s = (Ret (process (self s)), s') /\
    spawns s' = spawns s /\
    fs_pid (world s') = fs_pid (world s) /\
    fs_last_active (world s') = Some (str_float (now (world s))).
Proof.
  intros Hen Halive Ho.
  generalize (is_process_alive_keeps_self s).
  generalize (is_process_alive_keeps_spawns s).
  generalize (is_process_alive_keeps_files s).
  assert (Hnow : now (world (snd (is_process_alive s))) = now (world s)).
  { assert (H : keeps (same (fun s => now (world s))) is_process_alive)
      by (unfold is_process_alive; keeps_structure; keeps_leaves).
    apply H. }
  unfold same. intros Hfiles Hspawns Hself.
  unfold get_process. unfold bind at 1. unfold gets at 1. rewrite Hen.
  cbn [negb]. unfold bind at 1. unfold bind at 1.
  destruct (is_process_alive s) as [r s1]. cbn [fst snd] in *. subst r.
  cbn [negb].
  assert (Hen1 : enabled (self s1) = true) by (rewrite Hself; exact Hen).
  destruct (update_heartbeat_enabled s1 Hen1 Ho) as (s' & E & Hl & Hp & Hs & Ht).
  rewrite E. unfold gets. exists s'. repeat split.
  - rewrite Hs, Hself. reflexivity.
  - unfold spawns in *. rewrite Ht. exact Hspawns.
  - rewrite Hp. congruence.
  - rewrite Hl, Hnow. reflexivity.
Qed.

(** ** The sleep between two ticks *)

(** The sleep the monitor enters lasts the whole check interval. *)
Lemma monitor_step_enters_sleep (s : State) :
  _stop_event (self s) = false ->
  stat_ok s = true ->
  sleep_error (check_interval (self s)) = None ->
  exists s',
    monitor_tick s = (Ret tt, s') /\
    monitor_step AtLoopHead s
    = (InSleep (PrimFloat.add (now (world s')) (check_interval (self s))), s').
Proof.
  intros Hstop Hs Hsecs.
  destruct (monitor_tick_total s Hs) as (s' & E & Hself & _).
  exists s'. split; [exact E | ].
  unfold monitor_step. rewrite Hstop, E, Hself, Hsecs. reflexivity.
Qed.

(** C5, as the code has it.  The stop event is read at the [while] test only.
    A monitor thread that is inside [time.sleep] when [stop] sets the event
    does exactly what it does with the event clear: it stays in the sleep as
    long as the clock is before the end of the interval, and goes to the loop
    test after that, where the event makes it return.  The sleep it enters
    after a tick that returned, with an interval that [time.sleep] accepts,
    ends one whole check interval after the tick. *)
Theorem sleep_ignores_stop_event (s : State) (wake : float) :
  monitor_step (InSleep wake) (set_stop_event s)
  = (if PrimFloat.ltb (now (world s)) wake then InSleep wake else AtLoopHead,
     set_stop_event s) /\
  fst (monitor_step (InSleep wake) (set_stop_event s))
  = fst (monitor_step (InSleep wake) s) /\
  monitor_step AtLoopHead (set_stop_event s) = (Returned, set_stop_event s) /\
  (_stop_event (self s) = false ->
   stat_ok s = true ->
   sleep_error (check_interval (self s)) = None ->
   exists s',
     monitor_tick s = (Ret tt, s') /\
     monitor_step AtLoopHead s
     = (InSleep (PrimFloat.add (now (world s')) (check_interval (self s))), s')).
Proof.
  split; [ | split; [ | split]].
  - unfold monitor_step, set_stop_event. cbn.
    destruct (PrimFloat.ltb (now (world s)) wake); reflexivity.
  - unfold monitor_step, set_stop_event. cbn.
    destruct (PrimFloat.ltb (now (world s)) wake); reflexivity.
  - reflexivity.
  - apply monitor_step_enters_sleep.
Qed.

End ShutdownFacts.

(** * The claims on concrete runs *)

Example is_process_alive_examples :
  fst (is_process_alive idle_state) = Ret true /\
  fst (is_process_alive crashed_state) = Ret false /\
  fst (is_process_alive fresh_state) = Ret false.
Proof. repeat split; vm_compute; reflexivity. Qed.

(** Called on its own, [_terminate_process] does send SIGTERM to the process
    the identity file names and clears both files. *)
Example _terminate_process_example :
  fst (_terminate_process idle_state) = Ret tt /\
  trace (world (snd (_terminate_process idle_state))) = [SysKill 4242 SIGTERM] /\
  fs_pid (world (snd (_terminate_process idle_state))) = None /\
  fs_last_active (world (snd (_terminate_process idle_state))) = None.
Proof. repeat split; vm_compute; reflexivity. Qed.

(** C1, on the code.  The worker 4242 is alive and has been idle for 3 seconds
    under an idle timeout of 2, and the manager is enabled; the tick returns,
    having issued the liveness probe and nothing else: no SIGTERM is sent, and
    the identity file and the last-active file are both still there. *)
Theorem idle_worker_is_not_terminated :
  enabled (self idle_state) = true /\
  fst (is_process_alive idle_state) = Ret true /\
  fs_last_active (world idle_state) = Some "100.0" /\
  py_float "100.0" = Some 100%float /\
  PrimFloat.ltb (timeout (self idle_state))
    (PrimFloat.sub (now (world idle_state)) 100%float) = true /\
  fst (monitor_tick idle_state) = Ret tt /\
  signals (snd (monitor_tick idle_state)) = [] /\
  trace (world (snd (monitor_tick idle_state))) = [SysKill 4242 SIG_PROBE] /\
  fs_pid (world (snd (monitor_tick idle_state))) = Some "4242" /\
  fs_last_active (world (snd (monitor_tick idle_state))) = Some "100.0".
Proof. repeat split; vm_compute; reflexivity. Qed.

(** C2, on the code.  On an enabled manager with no identity file
    [get_process] spawns the worker, stores its handle, writes both files, and
    then raises [NameError] from the [print] that ends [_start_worker], so the
    handle is not returned. *)
Theorem get_process_raises_after_spawning :
  enabled (self fresh_state) = true /\
  fst (is_process_alive fresh_state) = Ret false /\
  fst (get_process fresh_state) = Raise NameError /\
  spawns (snd (get_process fresh_state)) = [SysSpawn ["mcp-worker"; "--stdio"] 5000] /\
  process (self (snd (get_process fresh_state))) = Some (mkPopen 5000 None) /\
  fs_pid (world (snd (get_process fresh_state))) = Some "5000" /\
  fs_last_active (world (snd (get_process fresh_state))) = Some "103.0".
Proof. repeat split; vm_compute; reflexivity. Qed.

(** [start] fails the same way, and the call of [get_process] after the failed
    one finds the worker alive and returns the stored handle. *)
Example start_and_second_get_process :
  fst (start fresh_state) = Raise NameError /\
  fst (get_process (snd (get_process fresh_state))) = Ret (Some (mkPopen 5000 None)) /\
  spawns (snd (get_process (snd (get_process fresh_state))))
  = [SysSpawn ["mcp-worker"; "--stdio"] 5000].
Proof. repeat split; vm_compute; reflexivity. Qed.

(** C5, against the claim.  The monitor entered a 60-second sleep at 103
    seconds; [stop] has set the event; at 103 seconds the thread is still in
    its sleep. *)
Lemma sleeping_monitor_outlasts_stop : ~ stop_event_wakes_sleeper.
Proof.
  intros H.
  apply (H (set_stop_event idle_state) 163%float); reflexivity.
Qed.

Example sleeping_monitor_timeline :
  fst (monitor_step (InSleep 163%float) (clock_at 162%float (set_stop_event idle_state)))
  = InSleep 163%float /\
  fst (monitor_step (InSleep 163%float) (clock_at 163%float (set_stop_event idle_state)))
  = AtLoopHead /\
  fst (monitor_step AtLoopHead (clock_at 163%float (set_stop_event idle_state)))
  = Returned.
Proof. repeat split; vm_compute; reflexivity. Qed.


(** C8, against the claim.  The worker 4242 does not exit within the five
    seconds [stop] waits for it: [stop] raises [TimeoutExpired] after the
    [SIGTERM], before the cleanup, and leaves both files and the handle on
    the live worker.  A second [stop] then finds the worker gone and ends
    elsewhere: without the files. *)
Lemma stop_can_leave_files_and_worker :
  ~ stop_leaves_nothing /\
  fst (stop stubborn_state) = Raise TimeoutExpired /\
  signals (snd (stop stubborn_state)) = [SysKill 4242 SIGTERM] /\
  fs_pid (world (snd (stop stubborn_state))) = Some "4242" /\
  fs_last_active (world (snd (stop stubborn_state))) = Some "100.0" /\
  live_handle (snd (stop stubborn_state)) = true /\
  fst ((stop ;; stop) stubborn_state) = Raise TimeoutExpired /\
  fst (stop (snd (stop stubborn_state))) = Ret tt /\
  fs_pid (world (snd (stop (snd (stop stubborn_state))))) = None.
Proof.
  split.
  - intros H. destruct (H stubborn_state eq_refl) as [H1 _].
    vm_compute in H1. discriminate H1.
  - repeat split; vm_compute; reflexivity.
Qed.

(** C9, against the claim.  With a skill directory that cannot be searched
    the first tick raises the [PermissionError] of [exists()], which no
    [try] block covers, and the monitor thread dies of it.  Where [stat]
    fails on the path of the last-active file only, the tick removes the
    identity file and raises at the next [exists()].  And with a check
    interval of ten thousand million seconds the tick returns and the
    [time.sleep] after it raises [OverflowError], of which the monitor thread
    dies as well. *)
Lemma monitor_dies_of_tick_and_sleep :
  (_stop_event (self unsearchable_state) = false /\
   fst (monitor_tick unsearchable_state) = Raise PermissionError /\
   fst (_monitor_loop 3 unsearchable_state) = Raise PermissionError /\
   fst (monitor_step AtLoopHead unsearchable_state) = Died PermissionError) /\
  (fst (is_process_alive overlong_state) = Ret false /\
   fst (monitor_tick overlong_state) = Raise OSError /\
   fs_pid (world (snd (monitor_tick overlong_state))) = None /\
   fs_last_active (world (snd (monitor_tick overlong_state))) = Some "1.0" /\
   fst (monitor_step AtLoopHead overlong_state) = Died OSError) /\
  (fst (monitor_tick patient_state) = Ret tt /\
   fst (_monitor_loop 3 patient_state) = Raise OverflowError /\
   fst (monitor_step AtLoopHead patient_state) = Died OverflowError).
Proof. repeat split; vm_compute; reflexivity. Qed.

(** C7, against the claim.  Each of the three ways of losing the worker
    starts where handle and record are both there and ends where the record
    is cleared and the handle is not. *)
Lemma record_cleared_handle_kept :
  ~ clears_handle_with_record monitor_tick /\
  ~ clears_handle_with_record _terminate_process /\
  ~ clears_handle_with_record stop.
Proof.
  assert (Hc : handle_matches_record crashed_state) by (split; discriminate).
  assert (Hi : handle_matches_record idle_state) by (split; discriminate).
  repeat split; intros H.
  - destruct (H crashed_state Hc) as [_ H2].
    specialize (H2 eq_refl). vm_compute in H2. discriminate H2.
  - destruct (H idle_state Hi) as [_ H2].
    specialize (H2 eq_refl). vm_compute in H2. discriminate H2.
  - destruct (H idle_state Hi) as [_ H2].
    specialize (H2 eq_refl). vm_compute in H2. discriminate H2.
Qed.

(** ** The theorems at concrete inputs *)

Lemma disabled_manager_does_nothing_witness :
  start disabled_state = (Ret tt, disabled_state) /\
  get_process disabled_state = (Ret None, disabled_state) /\
  update_heartbeat disabled_state = (Ret tt, disabled_state).
Proof.
  exact (proj2 (disabled_manager_does_nothing disabled_config
                  (mkKeepAlive (Some false) None None) eq_refl eq_refl)
               disabled_state eq_refl).
Defined.

Lemma tick_reconciles_dead_worker_witness :
  fst (monitor_tick crashed_state) = Ret tt /\
  signals (snd (monitor_tick crashed_state)) = signals crashed_state /\
  fs_pid (world (snd (monitor_tick crashed_state))) = None /\
  fs_last_active (world (snd (monitor_tick crashed_state))) = None.
Proof.
  destruct (tick_reconciles_dead_worker (py := decimal_builtins) crashed_state eq_refl)
    as (H1 & H2 & H3).
  exact (conj (H1 eq_refl) (conj H2 (H3 eq_refl))).
Defined.


Lemma sleep_ignores_stop_event_witness :
  exists s',
    monitor_tick idle_state = (Ret tt, s') /\
    monitor_step AtLoopHead idle_state
    = (InSleep (PrimFloat.add (now (world s')) (check_interval (self idle_state))), s').
Proof.
  exact (proj2 (proj2 (proj2 (sleep_ignores_stop_event idle_state 0%float)))
           eq_refl eq_refl eq_refl).
Defined.

Lemma stop_is_idempotent_witness :
  (exists s1,
     stop idle_state = (Ret tt, s1) /\
     stop s1 = (Ret tt, s1) /\
     (stop ;; stop) idle_state = stop idle_state /\
     fs_pid (world s1) = None /\
     fs_last_active (world s1) = None /\
     live_handle s1 = false /\
     signals s1 = [SysKill 4242 SIGTERM] /\
     mem 4242 (procs (world s1)) = false) /\
  (exists s',
     stop stubborn_state = (Raise TimeoutExpired, s') /\
     signals s' = [SysKill 4242 SIGTERM] /\
     fs_pid (world s') = Some "4242" /\
     fs_last_active (world s') = Some "100.0" /\
     live_handle s' = true).
Proof.
  split.
  - destruct (proj1 (stop_is_idempotent idle_state eq_refl) eq_refl)
      as (s1 & E1 & E2 & E3 & Hp & Hl & Hlive & Hsig).
    destruct (Hsig 4242 eq_refl eq_refl) as [Hs Hm].
    exists s1. repeat split; assumption.
  - exact (proj2 (stop_is_idempotent stubborn_state eq_refl)
             4242 TimeoutExpired [] eq_refl eq_refl eq_refl).
Defined.

Lemma update_heartbeat_writes_unconditionally_witness :
  exists s',
    update_heartbeat fresh_state = (Ret tt, s') /\
    fs_last_active (world s') = Some "103.0" /\
    fs_pid (world s') = None /\
    self s' = self fresh_state /\
    trace (world s') = [] /\
    (fs_pid (world fresh_state) = None -> process (self fresh_state) = None ->
     fs_pid (world s') = None /\ process (self s') = None /\
     fs_last_active (world s') <> None).
Proof. exact (update_heartbeat_writes_unconditionally fresh_state eq_refl eq_refl). Defined.

Lemma monitor_loop_survives_ticks_witness :
  exists r s',
    _monitor_loop 3 idle_state = (Ret r, s') /\
    (_stop_event (self idle_state) = false -> r = LoopRunning).
Proof. exact (proj2 (monitor_loop_survives_ticks idle_state eq_refl) 3%nat eq_refl). Defined.

Lemma handle_survives_record_witness :
  handle_pid (snd (monitor_tick crashed_state)) = Some 999 /\
  fs_pid (world (snd (monitor_tick crashed_state))) = None /\
  fs_last_active (world (snd (monitor_tick crashed_state))) = None.
Proof.
  destruct (handle_survives_record crashed_state) as (Hh & _ & _ & Hf).
  destruct (Hf eq_refl) as (Ht & _ & _).
  split; [exact Hh | exact (Ht eq_refl)].
Defined.

(** * Further facts about the methods *)

#[export] Instance only_removes_Frame (p : path) : Frame (only_removes p).
Proof.
  split; unfold only_removes.
  - auto.
  - intros a b c [H1 | H1] [H2 | H2]; [left | left | left | right]; congruence.
Qed.

#[export] Instance never_removes_Frame (p : path) : Frame (never_removes p).
Proof.
  split; unfold never_removes.
  - auto.
  - auto.
Qed.

#[export] Instance stays_stopped_Frame : Frame stays_stopped.
Proof.
  split; unfold stays_stopped.
  - auto.
  - auto.
Qed.

#[export] Instance trace_grows_Frame : Frame trace_grows.
Proof.
  split; unfold trace_grows.
  - auto.
  - auto.
Qed.

Lemma raises_bind {A B : Type} (m : M A) (k : A -> M B) :
  (forall a, raises (k a)) -> raises (bind m k).
Proof.
  intros Hk s. unfold bind.
  destruct (m s) as [[a | e] s1].
  - apply Hk.
  - exists e. reflexivity.
Qed.

Lemma raises_print (line : string) : raises (print_stderr line).
Proof. intros s. exists NameError. reflexivity. Qed.

(** The leaves of a run, for the relations on files and on the stop event. *)
Ltac relation_leaves :=
  try solve
    [ intros [m w]; destruct w; destruct m;
      unfold only_removes, never_removes, stays_stopped, trace_grows, fault,
        modify_world, modify_self;
      try match goal with p : path |- _ => destruct p end;
      try match goal with p : path |- _ => destruct p end;
      cbn;
      first [ tauto | intros; discriminate | intros; apply in_or_app; auto | auto ] ].

Section CoverageFacts.

Context {py : PyBuiltins}.

(** ** The liveness test is a query *)

Lemma is_process_alive_keeps_durable : keeps (same durable) is_process_alive.
Proof. unfold is_process_alive. keeps_structure; keeps_leaves. Qed.

(** X1. [is_process_alive] is a query: whatever it answers and whichever of
    its calls fail, the two durable files, the process table, the clock and
    every field of the manager are afterwards what they were, and it has sent
    no signal and spawned nothing. *)
Theorem is_process_alive_is_a_query (s : State) :
  durable (snd (is_process_alive s)) = durable s /\
  signals (snd (is_process_alive s)) = signals s /\
  spawns (snd (is_process_alive s)) = spawns s.
Proof.
  split; [ | split].
  - apply is_process_alive_keeps_durable.
  - apply is_process_alive_keeps_signals.
  - apply is_process_alive_keeps_spawns.
Qed.

(** ** The cleanup *)

Lemma _cleanup_files_only_removes (p : path) : keeps (only_removes p) _cleanup_files.
Proof. unfold _cleanup_files. keeps_structure; relation_leaves. Qed.

Lemma _cleanup_files_keeps_rest :
  keeps (same (fun s => (self s, procs (world s), trace (world s)))) _cleanup_files.
Proof. unfold _cleanup_files. keeps_structure; keeps_leaves. Qed.

(** X2. [_cleanup_files] only removes: afterwards each of the two files is
    absent or holds exactly what it held (the latter when its [unlink] failed
    and the error was swallowed, or when an [exists()] before it raised), and
    the manager's fields, the process table and the trace are untouched.
    Where [exists()] works on both paths it returns without raising,
    whichever [unlink] fails. *)
Theorem _cleanup_files_only_ever_removes (s : State) (p : path) :
  (stat_ok s = true -> fst (_cleanup_files s) = Ret tt) /\
  (file p (world (snd (_cleanup_files s))) = None \/
   file p (world (snd (_cleanup_files s))) = file p (world s)) /\
  self (snd (_cleanup_files s)) = self s /\
  procs (world (snd (_cleanup_files s))) = procs (world s) /\
  trace (world (snd (_cleanup_files s))) = trace (world s).
Proof.
  split; [ | split].
  - intros Hs. destruct (_cleanup_files_returns s Hs) as ([] & s' & E).
    rewrite E. reflexivity.
  - apply _cleanup_files_only_removes.
  - generalize (_cleanup_files_keeps_rest s). unfold same. intros H.
    injection H as H1 H2 H3. auto.
Qed.

(** ** Termination of the worker *)

Lemma _terminate_process_split (s : State) :
  _terminate_process s = (_terminate_process_signal ;; _cleanup_files) s.
Proof.
  unfold _terminate_process, _terminate_process_signal, path_exists, bind, gets, raise.
  destruct (stat_error pid_file (world s)); [reflexivity | ].
  destruct (is_some (file pid_file (world s))); reflexivity.
Qed.

Lemma _terminate_process_signal_stat_fails (s : State) (e : exn) :
  stat_error pid_file (world s) = Some e ->
  _terminate_process s = (Raise e, s).
Proof.
  intros H. unfold _terminate_process, bind at 1.
  rewrite (path_exists_raises _ _ _ H). reflexivity.
Qed.

Lemma _terminate_process_signal_spec (s : State) :
  stat_error pid_file (world s) = None ->
  exists s1,
    _terminate_process_signal s = (Ret tt, s1) /\
    durable s1 = durable s /\
    (fault_free s = true -> fault_free s1 = true) /\
    (stat_ok s = true -> stat_ok s1 = true) /\
    (trace (world s1) = trace (world s) \/
     exists txt n,
       fs_pid (world s) = Some txt /\ py_int txt = Some n /\
       trace (world s1) = (trace (world s) ++ [SysKill n SIGTERM])%list) /\
    (fault_free s = true ->
     forall txt n,
       fs_pid (world s) = Some txt -> py_int txt = Some n ->
       trace (world s1) = (trace (world s) ++ [SysKill n SIGTERM])%list).
Proof.
  intros Hstat.
  unfold _terminate_process_signal, bind at 1.
  rewrite (path_exists_answers _ _ Hstat).
  destruct s as [m w]. destruct w as [fp fl ps gs np cs t o sp sl tr].
  cbn in Hstat. subst sp.
  cbn [self world fs_pid fs_last_active procs
    groups next_pid child_status now oracle trace file].
  unfold read_text, to_int, open_r, f_read, os_kill, kill_reaches,
    fallible, fault, log, modify_world, gets, bind, try_except,
    ret, raise, fault_free, stat_ok, durable.
  destruct fp as [txt | ].
  2:{ cbn. eexists. repeat split; auto; intros; discriminate. }
  destruct (py_int txt) as [n | ] eqn:En.
  2:{ destruct o as [ | [e1 | ] [ | [e2 | ] o2]]; cbn; rewrite ?En; cbn;
      eexists; (split; [reflexivity | ]); (split; [reflexivity | ]);
      (split; [cbn; intros H; try discriminate H; auto | ]);
      (split; [cbn; auto | ]);
      (split; [left; reflexivity | ]);
      intros _ txt0 n0 H1 H2; congruence. }
  destruct (kill_reaches (mkWorld (Some txt) fl ps gs np cs t o None sl tr) n) eqn:Hm.
  all: unfold kill_reaches in Hm; cbn in Hm.
  all: destruct o as [ | [e1 | ] [ | [e2 | ] [ | [e3 | ] o3]]]; cbn; rewrite ?En; cbn;
    rewrite ?Hm; cbn;
    eexists; (split; [reflexivity | ]); (split; [reflexivity | ]);
    (split; [cbn; intros H; try discriminate H; auto | ]);
    (split; [cbn; auto | ]);
    (split;
     [ first [ left; reflexivity
             | right; exists txt, n; repeat split; auto ]
     | cbn; intros H txt0 n0 H1 H2; try discriminate H;
       inversion H1; subst txt0; rewrite En in H2; inversion H2; subst n0;
       reflexivity ]).
Qed.

(** X3. All [_terminate_process] can do to other processes is one call
    [os.kill(n, SIGTERM)] with the integer [n] that the identity file holds
    (a call that addresses a process group when [n] is not positive): its
    trace is the old one, or the old one followed by that one call.  The
    manager's fields and the process table are untouched.  Where [exists()]
    works on both paths it returns without raising, whichever of its other
    calls fail. *)
Theorem _terminate_process_signals_at_most_once (s : State) :
  (stat_ok s = true -> fst (_terminate_process s) = Ret tt) /\
  self (snd (_terminate_process s)) = self s /\
  procs (world (snd (_terminate_process s))) = procs (world s) /\
  (trace (world (snd (_terminate_process s))) = trace (world s) \/
   exists txt n,
     fs_pid (world s) = Some txt /\ py_int txt = Some n /\
     trace (world (snd (_terminate_process s)))
     = (trace (world s) ++ [SysKill n SIGTERM])%list).
Proof.
  destruct (stat_error pid_file (world s)) as [e | ] eqn:Hstat.
  { rewrite (_terminate_process_signal_stat_fails s e Hstat). cbn.
    split; [ | auto].
    intros Hs. rewrite (stat_ok_path pid_file s Hs) in Hstat. discriminate. }
  rewrite _terminate_process_split. unfold bind.
  destruct (_terminate_process_signal_spec s Hstat) as (s1 & E & Hd & _ & Hs1 & Ht & _).
  rewrite E.
  generalize (_cleanup_files_keeps_rest s1). unfold same.
  intros Hrest. injection Hrest as Hself Hprocs Htrace.
  unfold durable in Hd. injection Hd as D1 D2 D3 D4 D5 D6 D7 D8.
  split; [ | repeat split; try congruence].
  - intros Hs. destruct (_cleanup_files_returns s1 (Hs1 Hs)) as ([] & s2 & E2).
    rewrite E2. reflexivity.
  - rewrite Htrace. exact Ht.
Qed.

(** X4. With nothing made to fail and an identity file that holds an
    identifier, [_terminate_process] sends SIGTERM to exactly that identifier
    and leaves neither durable file, whether or not a process with that
    identifier exists (the lookup error of the signal is swallowed). *)
Theorem _terminate_process_signals_then_clears (s : State) (txt : string) (n : Z) :
  fault_free s = true ->
  fs_pid (world s) = Some txt ->
  py_int txt = Some n ->
  fst (_terminate_process s) = Ret tt /\
  trace (world (snd (_terminate_process s))) = (trace (world s) ++ [SysKill n SIGTERM])%list /\
  fs_pid (world (snd (_terminate_process s))) = None /\
  fs_last_active (world (snd (_terminate_process s))) = None.
Proof.
  intros Hff Hp Hn.
  destruct (fault_free_parts s Hff) as [_ Hs].
  rewrite _terminate_process_split. unfold bind.
  destruct (_terminate_process_signal_spec s (stat_ok_path pid_file s Hs))
    as (s1 & E & _ & Hff1 & Hs1 & _ & Ht).
  rewrite E.
  destruct (_cleanup_files_returns s1 (Hs1 Hs)) as ([] & s2 & E2).
  generalize (_cleanup_files_keeps_rest s1).
  generalize (_cleanup_files_clears s1 (Hff1 Hff)).
  rewrite E2. unfold same. cbn.
  intros [Hc1 Hc2] Hrest. injection Hrest as Hself Hprocs Htrace.
  repeat split; try assumption.
  rewrite Htrace. apply (Ht Hff txt n Hp Hn).
Qed.

(** ** Spawning the worker *)

Lemma _start_worker_split (s : State) :
  _start_worker s
  = (alive <- is_process_alive ;; if alive then ret tt else _start_worker_spawn) s.
Proof. reflexivity. Qed.

(** Every path through the spawn ends in the [print] that raises, or raises
    before it. *)
Lemma _start_worker_spawn_raises : raises _start_worker_spawn.
Proof.
  unfold _start_worker_spawn.
  do 6 (apply raises_bind; intros ?).
  apply raises_print.
Qed.

(** Without faults the liveness test reads off what the durable state
    records. *)
Lemma is_process_alive_fault_free (s : State) :
  fault_free s = true ->
  fst (is_process_alive s) = Ret (recorded_alive s).
Proof.
  destruct s as [m w]. destruct w as [fp fl ps gs np cs t o sp sl tr].
  unfold fault_free, recorded_alive. cbn. intros H.
  apply andb_true_iff in H. destruct H as [H Hsl].
  apply andb_true_iff in H. destruct H as [Ho Hsp].
  destruct sp; [discriminate Hsp | ].
  unfold is_process_alive, read_text, to_int, open_r, f_read, os_kill, kill_reaches,
    fallible, fault, log, path_exists, modify_world, gets, bind, try_except,
    ret, raise.
  destruct fp as [txt | ]; [ | reflexivity].
  destruct (py_int txt) as [n | ] eqn:En.
  - destruct (kill_reaches (mkWorld (Some txt) fl ps gs np cs t o None sl tr) n) eqn:Hm;
      unfold kill_reaches in Hm; cbn in Hm;
      destruct o as [ | [e1 | ] [ | [e2 | ] [ | [e3 | ] o3]]];
      cbn in Ho; try discriminate Ho; cbn; rewrite ?En; cbn; rewrite ?Hm;
      reflexivity.
  - destruct o as [ | [e1 | ] [ | [e2 | ] o2]];
      cbn in Ho; try discriminate Ho; cbn; rewrite ?En; reflexivity.
Qed.

Lemma _start_worker_spawn_fault_free (s : State) :
  fault_free s = true ->
  enabled (self s) = true ->
  exists s',
    _start_worker_spawn s = (Raise NameError, s') /\
    self s' = with_process (Some (mkPopen (next_pid (world s)) None)) (self s) /\
    fs_pid (world s') = Some (str_int (next_pid (world s))) /\
    fs_last_active (world s') = Some (str_float (now (world s))) /\
    procs (world s') = next_pid (world s) :: procs (world s) /\
    trace (world s')
    = (trace (world s)
       ++ [SysSpawn (command (self s) :: args (self s)) (next_pid (world s))])%list /\
    fault_free s' = true.
Proof.
  destruct s as [m w]. destruct w as [fp fl ps gs np cs t o sp sl tr].
  destruct m as [cmd ar en tmo ci pr wp se mt].
  unfold fault_free. cbn. intros H ->.
  apply andb_true_iff in H. destruct H as [H Hsl].
  apply andb_true_iff in H. destruct H as [Ho Hsp].
  unfold _start_worker_spawn, update_heartbeat, write_text, subprocess_Popen,
    set_process, open_w, f_write, time_time, print_stderr, load_global, log,
    fallible, fault, modify_world, modify_self, bind, gets, ret, raise.
  destruct o as [ | [e1 | ] [ | [e2 | ] [ | [e3 | ] [ | [e4 | ] [ | [e5 | ] o5]]]]];
    cbn in Ho; try discriminate Ho; cbn;
    eexists; repeat split; try reflexivity;
    cbn; rewrite ?Ho, ?Hsp, ?Hsl; reflexivity.
Qed.

(** X5. While the liveness test answers [True], [_start_worker] spawns
    nothing: it returns right after the test, with the files, the process
    table and the manager's handle as they were. *)
Theorem _start_worker_never_spawns_second (s : State) :
  fst (is_process_alive s) = Ret true ->
  fst (_start_worker s) = Ret tt /\
  spawns (snd (_start_worker s)) = spawns s /\
  durable (snd (_start_worker s)) = durable s.
Proof.
  intros Halive.
  assert (E : _start_worker s = (Ret tt, snd (is_process_alive s))).
  { rewrite _start_worker_split. unfold bind.
    destruct (is_process_alive s) as [r s1]. cbn in Halive. subst r. reflexivity. }
  rewrite E. cbn [fst snd]. split; [reflexivity | ]. split.
  - apply is_process_alive_keeps_spawns.
  - apply is_process_alive_keeps_durable.
Qed.

Lemma _start_worker_not_alive (s : State) :
  fst (is_process_alive s) = Ret false ->
  _start_worker s = _start_worker_spawn (snd (is_process_alive s)).
Proof.
  intros H. rewrite _start_worker_split. unfold bind.
  destruct (is_process_alive s) as [r s1]. cbn in H. subst r. reflexivity.
Qed.

Lemma _start_worker_spawn_path (s : State) :
  enabled (self s) = true ->
  fst (is_process_alive s) = Ret false ->
  fault_free (snd (is_process_alive s)) = true ->
  exists s',
    _start_worker s = (Raise NameError, s') /\
    self s' = with_process (Some (mkPopen (next_pid (world s)) None)) (self s) /\
    spawns s'
    = (spawns s
       ++ [SysSpawn (command (self s) :: args (self s)) (next_pid (world s))])%list /\
    procs (world s') = next_pid (world s) :: procs (world s) /\
    fs_pid (world s') = Some (str_int (next_pid (world s))) /\
    fs_last_active (world s') = Some (str_float (now (world s))) /\
    fault_free s' = true.
Proof.
  intros Hen Hdead Hff.
  rewrite (_start_worker_not_alive s Hdead).
  generalize (is_process_alive_keeps_durable s).
  generalize (is_process_alive_keeps_spawns s).
  set (s1 := snd (is_process_alive s)) in *.
  unfold same, durable. intros Hsp Hd. injection Hd as D1 D2 D3 D4 D5 D6 D7 D8.
  assert (Hen1 : enabled (self s1) = true) by (rewrite D1; exact Hen).
  destruct (_start_worker_spawn_fault_free s1 Hff Hen1)
    as (s' & E & Hself & Hp & Hl & Hprocs & Htrace & Hff').
  exists s'. rewrite <- D1, <- D4, <- D5, <- D7, <- Hsp.
  repeat split; try assumption.
  unfold spawns. rewrite Htrace, filter_app. reflexivity.
Qed.

(** X6. When the liveness test answers [False] on an enabled manager and
    nothing after it is made to fail, [_start_worker] spawns exactly one child
    with the configured command line, stores its handle in [self.process],
    writes the child's identifier to the identity file and the current time
    to the last-active file, and then raises [NameError] from its closing
    [print]. *)
Theorem _start_worker_spawns_once_then_raises (s : State) :
  enabled (self s) = true ->
  fst (is_process_alive s) = Ret false ->
  fault_free (snd (is_process_alive s)) = true ->
  let child := next_pid (world s) in
  fst (_start_worker s) = Raise NameError /\
  spawns (snd (_start_worker s))
  = (spawns s ++ [SysSpawn (command (self s) :: args (self s)) child])%list /\
  process (self (snd (_start_worker s))) = Some (mkPopen child None) /\
  procs (world (snd (_start_worker s))) = child :: procs (world s) /\
  fs_pid (world (snd (_start_worker s))) = Some (str_int child) /\
  fs_last_active (world (snd (_start_worker s))) = Some (str_float (now (world s))).
Proof.
  intros Hen Hdead Hff child. unfold child. clear child.
  destruct (_start_worker_spawn_path s Hen Hdead Hff)
    as (s' & E & Hself & Hsp & Hprocs & Hp & Hl & _).
  rewrite E. cbn [fst snd]. repeat split; try assumption.
  rewrite Hself. reflexivity.
Qed.

Lemma _start_worker_returned (s : State) :
  fst (_start_worker s) = Ret tt ->
  fst (is_process_alive s) = Ret true /\
  spawns (snd (_start_worker s)) = spawns s /\
  durable (snd (_start_worker s)) = durable s.
Proof.
  intros Hret.
  assert (Halive : fst (is_process_alive s) = Ret true).
  { destruct (is_process_alive s) as [[b | e] s1] eqn:E; cbn.
    - destruct b; [reflexivity | exfalso].
      rewrite (_start_worker_not_alive s) in Hret by (rewrite E; reflexivity).
      destruct (_start_worker_spawn_raises (snd (is_process_alive s))) as (e & He).
      rewrite He in Hret. discriminate Hret.
    - exfalso. rewrite _start_worker_split in Hret. unfold bind in Hret.
      rewrite E in Hret. discriminate Hret. }
  split; [exact Halive | ].
  rewrite _start_worker_split. unfold bind.
  generalize (is_process_alive_keeps_spawns s).
  generalize (is_process_alive_keeps_durable s).
  destruct (is_process_alive s) as [r s1]. cbn in Halive. subst r.
  unfold same. cbn. auto.
Qed.

(** X7. [_start_worker] returns normally only when it found the worker alive
    and spawned nothing: on every path on which it spawns, it raises. *)
Theorem _start_worker_returns_only_without_spawn (s : State) :
  fst (_start_worker s) = Ret tt ->
  fst (is_process_alive s) = Ret true /\
  spawns (snd (_start_worker s)) = spawns s /\
  durable (snd (_start_worker s)) = durable s.
Proof. exact (_start_worker_returned s). Qed.

(** ** The caller's entry points *)

Lemma update_heartbeat_keeps_identity :
  keeps (same (fun s => (self s, fs_pid (world s), procs (world s), trace (world s))))
        update_heartbeat.
Proof. unfold update_heartbeat. keeps_structure; keeps_leaves. Qed.

Lemma fault_free_firstn (n : nat) (s : State) :
  fault_free s = true ->
  forallb no_fault (firstn n (oracle (world s))) = true.
Proof.
  intros H. destruct (fault_free_parts s H) as [Ho _]. revert Ho.
  generalize (oracle (world s)). intros o. revert n.
  induction o as [ | x o IH]; intros [ | n]; cbn; auto.
  intros H'. apply andb_true_iff in H'. destruct H' as [Hx Ho].
  rewrite Hx. cbn. auto.
Qed.

Lemma get_process_returned (s : State) (h : option Popen) :
  fst (get_process s) = Ret h ->
  h = (if enabled (self s) then process (self s) else None) /\
  spawns (snd (get_process s)) = spawns s /\
  self (snd (get_process s)) = self s /\
  fs_pid (world (snd (get_process s))) = fs_pid (world s).
Proof.
  destruct (get_process s) as [r s'] eqn:G. cbn [fst snd]. intros ->.
  unfold get_process in G. unfold bind at 1 in G. unfold gets at 1 in G.
  destruct (enabled (self s)) eqn:Hen; cbn [negb] in G.
  2:{ cbn in G. injection G as <- <-. auto. }
  unfold bind at 1 in G. unfold bind at 1 in G.
  revert G.
  generalize (is_process_alive_keeps_spawns s).
  generalize (is_process_alive_keeps_durable s).
  destruct (is_process_alive s) as [[b | e] s1]; [ | intros _ _ G; discriminate G].
  unfold same, durable. cbn [snd]. intros Hd Hsp G.
  injection Hd as D1 D2 D3 D4 D5 D6 D7 D8.
  destruct b; cbn [negb] in G.
  - generalize (update_heartbeat_keeps_identity s1). unfold same.
    destruct (update_heartbeat s1) as [[[] | e] s2]; cbn [snd fst];
      [ | discriminate G].
    intros Hk. injection Hk as K1 K2 K3 K4. unfold gets in G.
    injection G as <- <-.
    repeat split; try congruence.
    unfold spawns in *. rewrite K4. exact Hsp.
  - generalize (_start_worker_returned s1).
    destruct (_start_worker s1) as [[[] | e] s2]; cbn [snd fst];
      [ | discriminate G].
    intros Hk. destruct (Hk eq_refl) as (_ & Ksp & Kd).
    unfold durable in Kd. injection Kd as K1 K2 K3 K4 K5 K6 K7 K8.
    unfold gets in G. injection G as <- <-.
    repeat split; congruence.
Qed.

(** X8. What [get_process] returns, when it returns: [None] on a disabled
    manager, and otherwise the handle the manager already held before the
    call, [None] if it held none.  A call that returns has spawned nothing
    and left the identity file and the manager's fields alone; a worker
    spawned by the call is never handed out by that call. *)
Theorem get_process_returns_only_stored_handle (s : State) (h : option Popen) :
  fst (get_process s) = Ret h ->
  h = (if enabled (self s) then process (self s) else None) /\
  spawns (snd (get_process s)) = spawns s /\
  self (snd (get_process s)) = self s /\
  fs_pid (world (snd (get_process s))) = fs_pid (world s).
Proof. exact (get_process_returned s h). Qed.

Lemma recorded_alive_durable (s s' : State) :
  durable s' = durable s -> recorded_alive s' = recorded_alive s.
Proof.
  unfold durable, recorded_alive, kill_reaches. intros H.
  injection H as D1 D2 D3 D4 D5 D6 D7 D8. rewrite D2, D4, D8. reflexivity.
Qed.

Lemma get_process_spawn_path (s : State) :
  fault_free s = true ->
  enabled (self s) = true ->
  recorded_alive s = false ->
  exists s',
    get_process s = (Raise NameError, s') /\
    self s' = with_process (Some (mkPopen (next_pid (world s)) None)) (self s) /\
    spawns s'
    = (spawns s
       ++ [SysSpawn (command (self s) :: args (self s)) (next_pid (world s))])%list /\
    procs (world s') = next_pid (world s) :: procs (world s) /\
    fs_pid (world s') = Some (str_int (next_pid (world s))) /\
    fs_last_active (world s') = Some (str_float (now (world s))) /\
    fault_free s' = true.
Proof.
  intros Hff Hen Hdead.
  generalize (is_process_alive_fault_free s Hff). rewrite Hdead. intros Ha.
  generalize (is_process_alive_keeps_ff s Hff).
  generalize (is_process_alive_keeps_spawns s).
  generalize (is_process_alive_keeps_durable s).
  unfold get_process. unfold bind at 1. unfold gets at 1. rewrite Hen.
  cbn [negb]. unfold bind at 1. unfold bind at 1.
  destruct (is_process_alive s) as [r s1]. cbn [fst snd] in *. subst r.
  unfold same. intros Hd Hsp Hff1.
  assert (Hdead1 : recorded_alive s1 = false).
  { rewrite (recorded_alive_durable s s1 Hd). exact Hdead. }
  unfold durable in Hd.
  injection Hd as D1 D2 D3 D4 D5 D6 D7 D8. cbn [negb].
  assert (Ha1 : fst (is_process_alive s1) = Ret false).
  { rewrite (is_process_alive_fault_free s1 Hff1), Hdead1. reflexivity. }
  assert (Hen1 : enabled (self s1) = true) by (rewrite D1; exact Hen).
  destruct (_start_worker_spawn_path s1 Hen1 Ha1 (is_process_alive_keeps_ff s1 Hff1))
    as (s' & E & Hself & Hspw & Hprocs & Hp & Hl & Hff').
  rewrite E. exists s'.
  rewrite <- D1, <- D4, <- D5, <- D7, <- Hsp.
  repeat split; assumption.
Qed.

(** X9. Two calls of [get_process] on an enabled manager whose durable state
    records no live worker, with nothing made to fail and [int] reading back
    the identifier [str] printed: the first call spawns the worker and
    raises; the second finds the identity file the first one wrote, sees the
    worker alive, spawns nothing more, and returns the handle of that worker. *)
Theorem get_process_second_call_returns_spawned_worker (s : State) :
  fault_free s = true ->
  enabled (self s) = true ->
  recorded_alive s = false ->
  py_int (str_int (next_pid (world s))) = Some (next_pid (world s)) ->
  let child := next_pid (world s) in
  let s' := snd (get_process s) in
  fst (get_process s) = Raise NameError /\
  recorded_alive s' = true /\
  fst (get_process s') = Ret (Some (mkPopen child None)) /\
  spawns (snd (get_process s'))
  = (spawns s ++ [SysSpawn (command (self s) :: args (self s)) child])%list.
Proof.
  intros Hff Hen Hdead Hround child s'. unfold child, s'. clear child s'.
  destruct (get_process_spawn_path s Hff Hen Hdead)
    as (s' & E & Hself & Hspw & Hprocs & Hp & Hl & Hff').
  rewrite E. cbn [fst snd].
  assert (Halive : recorded_alive s' = true).
  { unfold recorded_alive, kill_reaches. rewrite Hp, Hround, Hprocs.
    unfold mem. cbn. rewrite Z.eqb_refl. reflexivity. }
  assert (Ha : fst (is_process_alive s') = Ret true).
  { rewrite (is_process_alive_fault_free s' Hff'), Halive. reflexivity. }
  assert (Hen' : enabled (self s') = true) by (rewrite Hself; exact Hen).
  destruct (get_process_reuses_live_worker s' Hen' Ha
              (fault_free_firstn 2 _ (is_process_alive_keeps_ff s' Hff')))
    as (s2 & E2 & Hsp2 & _ & _).
  rewrite E2. cbn [fst snd]. rewrite Hself, Hsp2, Hspw.
  repeat split; auto.
Qed.

Lemma _start_worker_keeps_thread :
  keeps (same (fun s => _monitor_thread (self s))) _start_worker.
Proof. unfold _start_worker. keeps_structure; keeps_leaves. Qed.

Lemma _start_worker_trace_grows : keeps trace_grows _start_worker.
Proof. unfold _start_worker. keeps_structure; relation_leaves. Qed.

(** X10. On an enabled manager [start] starts the monitor thread before it
    turns to the worker: however the call ends, by returning or by an
    exception of the spawn, the thread has been started and stays recorded.
    And a [start] that returns has spawned nothing. *)
Theorem start_starts_monitor_first (s : State) :
  enabled (self s) = true ->
  _monitor_thread (self (snd (start s))) = true /\
  In ThreadStart (trace (world (snd (start s)))) /\
  (fst (start s) = Ret tt -> spawns (snd (start s)) = spawns s).
Proof.
  intros Hen.
  set (s0 := mkState (with_monitor_thread true (self s))
                     (with_trace (trace (world s) ++ [ThreadStart]) (world s))).
  assert (E : start s = _start_worker s0).
  { unfold start, _start_monitor, bind, gets, modify_self, log, modify_world.
    rewrite Hen. reflexivity. }
  rewrite E. split; [ | split].
  - rewrite (_start_worker_keeps_thread s0). reflexivity.
  - apply (_start_worker_trace_grows s0). unfold s0. cbn.
    destruct (world s). cbn. apply in_or_app. right. left. reflexivity.
  - intros Hret. destruct (_start_worker_returned s0 Hret) as (_ & Hsp & _).
    rewrite Hsp. unfold spawns, s0. destruct (world s). cbn.
    rewrite filter_app. cbn. apply app_nil_r.
Qed.

(** X11. The two calls a client makes on a manager it has started,
    [get_process] and [update_heartbeat], never send a signal and never
    remove a durable file: in every run of the call, returning or raising,
    the signals sent are those sent before, and a file that was there is
    still there.  (What the monitor thread does in the meantime is not part
    of the call.) *)
Theorem entry_points_never_signal_or_remove (s : State) (p : path) :
  (signals (snd (get_process s)) = signals s /\
   (file p (world s) <> None -> file p (world (snd (get_process s))) <> None)) /\
  (signals (snd (update_heartbeat s)) = signals s /\
   (file p (world s) <> None -> file p (world (snd (update_heartbeat s))) <> None)).
Proof.
  assert (H3 : keeps (same signals) get_process)
    by (unfold get_process; keeps_structure; keeps_leaves).
  assert (H4 : keeps (never_removes p) get_process)
    by (unfold get_process; keeps_structure; relation_leaves).
  assert (H5 : keeps (same signals) update_heartbeat)
    by (unfold update_heartbeat; keeps_structure; keeps_leaves).
  assert (H6 : keeps (never_removes p) update_heartbeat)
    by (unfold update_heartbeat; keeps_structure; relation_leaves).
  repeat split; first [apply H3 | apply H4 | apply H5 | apply H6].
Qed.

(** ** Shutdown, further *)

Lemma stop_stays_stopped : keeps stays_stopped stop.
Proof.
  unfold stop, Popen_terminate, Popen_wait, Popen_poll.
  keeps_structure; relation_leaves.
Qed.

Lemma stop_sets_event_first (s : State) : stop s = stop (set_stop_event s).
Proof. reflexivity. Qed.

Lemma stop_sets_the_event (s : State) : _stop_event (self (snd (stop s))) = true.
Proof. rewrite stop_sets_event_first. apply stop_stays_stopped. reflexivity. Qed.

(** X12. However [stop] ends, by returning or by an exception, the stop event
    is set afterwards, and a monitor loop that comes to its test in that
    state returns without another tick. *)
Theorem stop_always_ends_the_monitor (s : State) (fuel : nat) :
  _stop_event (self (snd (stop s))) = true /\
  _monitor_loop (S fuel) (snd (stop s)) = (Ret LoopReturned, snd (stop s)) /\
  monitor_step AtLoopHead (snd (stop s)) = (Returned, snd (stop s)).
Proof.
  assert (H := stop_sets_the_event s).
  split; [exact H | split].
  - cbn [_monitor_loop]. unfold bind at 1. unfold gets at 1. rewrite H. reflexivity.
  - unfold monitor_step. rewrite H. reflexivity.
Qed.

(** X13. A held worker that is running when [stop] is called and whose wait
    fails (it does not exit within the five seconds, say): [stop] has set the
    event and sent SIGTERM to the worker, and then raises the error of the
    wait without reaching the cleanup, so both durable files and the process
    table are as they were. *)
Theorem stop_gives_up_before_cleanup (s : State) (p : Popen) (e : exn)
    (o : list (option exn)) :
  worker_process (self s) = None ->
  process (self s) = Some p ->
  returncode p = None ->
  mem (pid p) (procs (world s)) = true ->
  oracle (world s) = None :: Some e :: o ->
  fst (stop s) = Raise e /\
  _stop_event (self (snd (stop s))) = true /\
  trace (world (snd (stop s))) = (trace (world s) ++ [SysKill (pid p) SIGTERM])%list /\
  fs_pid (world (snd (stop s))) = fs_pid (world s) /\
  fs_last_active (world (snd (stop s))) = fs_last_active (world s) /\
  procs (world (snd (stop s))) = procs (world s).
Proof.
  destruct s as [m w]. destruct w as [fp fl ps gs np cs t o0 sp sl tr].
  destruct m as [cmd ar en tmo ci pr wp se mt].
  destruct p as [c rc]. cbn. intros -> -> -> Hm ->.
  unfold stop, Popen_terminate, Popen_poll, Popen_wait, Thread_join,
    os_kill, kill_reaches, log, set_process, fallible, fault, modify_world,
    modify_self, try_except, bind, gets, ret, raise.
  destruct mt; repeat (progress (cbn; rewrite ?Hm)); repeat split; reflexivity.
Qed.

Lemma stop_without_handle (s : State) :
  process (self s) = None ->
  worker_process (self s) = None ->
  stop s = _cleanup_files (set_stop_event s).
Proof.
  destruct s as [m w]. destruct m as [cmd ar en tmo ci pr wp se mt].
  cbn. intros -> ->.
  unfold stop, Thread_join, set_stop_event, modify_self, bind, gets, ret.
  destruct mt; reflexivity.
Qed.

(** X14. A manager that holds no handle, because it did not spawn the worker
    the identity file names, signals nobody in [stop]: however the call
    ends, the trace and the process table are as they were, so that worker
    keeps running.  Where [exists()] works on both paths the call returns,
    and with nothing made to fail both durable files are removed all the
    same. *)
Theorem stop_without_handle_signals_nobody (s : State) :
  process (self s) = None ->
  worker_process (self s) = None ->
  trace (world (snd (stop s))) = trace (world s) /\
  procs (world (snd (stop s))) = procs (world s) /\
  (stat_ok s = true -> fst (stop s) = Ret tt) /\
  (fault_free s = true ->
   fs_pid (world (snd (stop s))) = None /\
   fs_last_active (world (snd (stop s))) = None).
Proof.
  intros Hp Hw. rewrite (stop_without_handle s Hp Hw).
  set (s0 := set_stop_event s).
  generalize (_cleanup_files_keeps_rest s0).
  unfold same. intros Hk. injection Hk as K1 K2 K3.
  split; [exact K3 | ]. split; [exact K2 | ]. split.
  - intros Hs. destruct (_cleanup_files_returns s0 Hs) as ([] & s1 & E).
    rewrite E. reflexivity.
  - intros Hff. apply _cleanup_files_clears. exact Hff.
Qed.

(** ** The monitor loop, further *)

(** X15. A check interval that [time.sleep] refuses ends the monitor: with
    the stop event clear and a first tick that returns, the loop dies at its
    first sleep, which is outside every [try], of the error [time.sleep]
    raises: [ValueError] for a negative interval or NaN, [OverflowError] for
    one beyond what the clock can hold, the infinities included. *)
Theorem monitor_dies_of_refused_interval (s : State) (fuel : nat) (e : exn) :
  _stop_event (self s) = false ->
  fst (monitor_tick s) = Ret tt ->
  sleep_error (check_interval (self s)) = Some e ->
  _monitor_loop (S fuel) s = (Raise e, snd (monitor_tick s)) /\
  monitor_step AtLoopHead s = (Died e, snd (monitor_tick s)).
Proof.
  intros Hstop Htick Hsecs.
  generalize (monitor_tick_keeps_self s). unfold same.
  destruct (monitor_tick s) as [r s1] eqn:E. cbn [fst snd] in *. subst r.
  intros Hself.
  split.
  - cbn [_monitor_loop]. unfold bind at 1. unfold gets at 1. rewrite Hstop.
    unfold bind at 1. rewrite E. unfold bind at 1. unfold gets at 1.
    unfold bind at 1. rewrite Hself.
    rewrite (time_sleep_raises _ _ _ Hsecs). reflexivity.
  - unfold monitor_step. rewrite Hstop, E, Hself, Hsecs. reflexivity.
Qed.

Lemma monitor_tick_keeps_outside :
  keeps (same (fun s => (self s, procs (world s), signals s, spawns s))) monitor_tick.
Proof.
  unfold monitor_tick.
  apply keeps_bind; try solve_frame; [ | intros alive].
  - unfold is_process_alive. keeps_structure; keeps_leaves.
  - destruct alive.
    + intros s. generalize (_check_timeout_keeps_all s).
      unfold same, but_oracle, signals, spawns. intros H.
      injection H as H1 H2 H3 H4 H5 H6 H7 H8. congruence.
    + unfold _cleanup_files. keeps_structure; keeps_leaves.
Qed.

Lemma monitor_tick_only_removes (p : path) : keeps (only_removes p) monitor_tick.
Proof.
  unfold monitor_tick.
  apply keeps_bind; try solve_frame; [ | intros alive].
  - unfold is_process_alive. keeps_structure; relation_leaves.
  - destruct alive; [ | apply _cleanup_files_only_removes].
    intros s. generalize (_check_timeout_keeps_all s).
    unfold same, but_oracle, only_removes. intros H.
    injection H as H1 H2 H3 H4 H5 H6 H7 H8.
    right. destruct p; cbn; assumption.
Qed.

Lemma _monitor_loop_keeps_outside (fuel : nat) :
  keeps (same (fun s => (self s, procs (world s), signals s, spawns s)))
        (_monitor_loop fuel).
Proof.
  induction fuel as [ | fuel IH]; cbn [_monitor_loop].
  - keeps_structure.
  - apply keeps_bind; try solve_frame; [keeps_structure | intros stopped].
    destruct stopped; [keeps_structure | ].
    apply keeps_bind; try solve_frame; [apply monitor_tick_keeps_outside | intros _].
    apply keeps_bind; try solve_frame; [keeps_structure | intros secs].
    apply keeps_bind; try solve_frame; [ | intros _; exact IH].
    unfold time_sleep. keeps_structure; keeps_leaves.
Qed.

Lemma _monitor_loop_only_removes (p : path) (fuel : nat) :
  keeps (only_removes p) (_monitor_loop fuel).
Proof.
  induction fuel as [ | fuel IH]; cbn [_monitor_loop].
  - keeps_structure.
  - apply keeps_bind; try solve_frame; [keeps_structure | intros stopped].
    destruct stopped; [keeps_structure | ].
    apply keeps_bind; try solve_frame; [apply monitor_tick_only_removes | intros _].
    apply keeps_bind; try solve_frame; [keeps_structure | intros secs].
    apply keeps_bind; try solve_frame; [ | intros _; exact IH].
    unfold time_sleep. keeps_structure; relation_leaves.
Qed.

(** X16. The monitor loop, run for any number of iterations, never sends a
    signal and never spawns; it leaves the manager's fields and the process
    table alone; and a durable file is afterwards absent, or holds what it
    held: removing files is all the loop does to the durable state. *)
Theorem monitor_loop_only_removes_files (fuel : nat) (s : State) (p : path) :
  signals (snd (_monitor_loop fuel s)) = signals s /\
  spawns (snd (_monitor_loop fuel s)) = spawns s /\
  self (snd (_monitor_loop fuel s)) = self s /\
  procs (world (snd (_monitor_loop fuel s))) = procs (world s) /\
  (file p (world (snd (_monitor_loop fuel s))) = None \/
   file p (world (snd (_monitor_loop fuel s))) = file p (world s)).
Proof.
  generalize (_monitor_loop_keeps_outside fuel s). unfold same. intros H.
  injection H as K1 K2 K3 K4.
  repeat split; try assumption. apply _monitor_loop_only_removes.
Qed.

(** ** The module-level manager *)

Lemma start_keeps_settings : keeps (same (fun s => settings (self s))) start.
Proof. unfold start, _start_monitor. keeps_structure; keeps_leaves. Qed.

(** X17. [init_manager] binds the global before it calls [start]: however the
    call ends, [get_manager] afterwards returns a manager with the settings of
    the configuration, also when [start] raised; and under a disabled
    configuration the call returns and does nothing but bind the global. *)
Theorem init_manager_registers_before_start (config : Config) (g : Program) :
  (exists m,
     get_manager (snd (init_manager config g)) = Some m /\
     settings m = settings (__init__ config)) /\
  (enabled (__init__ config) = false ->
   init_manager config g = (Ret tt, mkProgram (Some (__init__ config)) (os_world g))).
Proof.
  unfold init_manager, call_on_manager, get_manager. cbn [_manager os_world].
  set (s0 := mkState (__init__ config) (os_world g)).
  split.
  - generalize (start_keeps_settings s0). unfold same.
    destruct (start s0) as [r s']. cbn. intros H.
    exists (self s'). split; [reflexivity | exact H].
  - intros Hen. unfold start, bind, gets. unfold s0 at 1. cbn [self].
    rewrite Hen. reflexivity.
Qed.

(** X18. [shutdown_manager] without a manager does nothing.  With one, the
    global is cleared exactly when [stop] returned: when [stop] raised, the
    exception goes on to the caller and the manager stays bound, its stop
    event set. *)
Theorem shutdown_manager_clears_only_on_success (g : Program) :
  (get_manager g = None -> shutdown_manager g = (Ret tt, g)) /\
  (fst (shutdown_manager g) = Ret tt ->
   get_manager (snd (shutdown_manager g)) = None) /\
  (forall e,
     fst (shutdown_manager g) = Raise e ->
     exists m,
       get_manager (snd (shutdown_manager g)) = Some m /\
       _stop_event m = true).
Proof.
  unfold shutdown_manager, call_on_manager, get_manager.
  destruct (_manager g) as [m | ] eqn:Hm.
  2:{ split; [reflexivity | split; [intros _; exact Hm | intros e H; discriminate H]]. }
  generalize (stop_sets_the_event (mkState m (os_world g))).
  destruct (stop (mkState m (os_world g))) as [[[] | e0] s']; cbn.
  - intros _.
    split; [intros H; discriminate H | ].
    split; [reflexivity | intros e H; discriminate H].
  - intros He.
    split; [intros H; discriminate H | ].
    split; [intros H; discriminate H | ].
    intros e _. exists (self s'). split; [reflexivity | exact He].
Qed.

Lemma start_spawn_path (s : State) :
  fault_free s = true ->
  enabled (self s) = true ->
  recorded_alive s = false ->
  exists s',
    start s = (Raise NameError, s') /\
    process (self s') = Some (mkPopen (next_pid (world s)) None) /\
    worker_process (self s') = worker_process (self s) /\
    signals s' = signals s /\
    procs (world s') = next_pid (world s) :: procs (world s) /\
    fault_free s' = true.
Proof.
  intros Hff Hen Hdead.
  set (s0 := mkState (with_monitor_thread true (self s))
                     (with_trace (trace (world s) ++ [ThreadStart]) (world s))).
  assert (E : start s = _start_worker s0).
  { unfold start, _start_monitor, bind, gets, modify_self, log, modify_world.
    rewrite Hen. reflexivity. }
  assert (Hff0 : fault_free s0 = true).
  { unfold s0, fault_free in *. destruct (world s). exact Hff. }
  assert (Hdead0 : recorded_alive s0 = false).
  { unfold s0, recorded_alive in *. destruct (world s). exact Hdead. }
  assert (Ha0 : fst (is_process_alive s0) = Ret false).
  { rewrite (is_process_alive_fault_free s0 Hff0), Hdead0. reflexivity. }
  assert (Hen0 : enabled (self s0) = true) by (unfold s0; cbn; exact Hen).
  destruct (_start_worker_spawn_path s0 Hen0 Ha0 (is_process_alive_keeps_ff s0 Hff0))
    as (s' & E' & Hself & Hspw & Hprocs & Hp & Hl & Hff').
  assert (Hsig : keeps (same signals) _start_worker)
    by (unfold _start_worker; keeps_structure; keeps_leaves).
  exists s'. rewrite E, E'. split; [reflexivity | ].
  generalize (Hsig s0). rewrite E'. unfold same. cbn [snd]. intros Hs.
  rewrite Hself, Hs, Hprocs.
  unfold s0, signals. destruct (world s). cbn.
  rewrite filter_app. cbn. rewrite app_nil_r.
  repeat split; auto.
Qed.

(** X19. [init_manager] and then [shutdown_manager], on an enabled
    configuration with no worker recorded alive and nothing made to fail:
    the first spawns the worker and raises [NameError]; the second, called
    after that, sends SIGTERM to exactly that worker, reaps it, removes both
    durable files and clears the global. *)
Theorem init_then_shutdown_releases_worker (config : Config) (g : Program) :
  enabled (__init__ config) = true ->
  fault_free (mkState (__init__ config) (os_world g)) = true ->
  recorded_alive (mkState (__init__ config) (os_world g)) = false ->
  let child := next_pid (os_world g) in
  let g1 := snd (init_manager config g) in
  let g2 := snd (shutdown_manager g1) in
  fst (init_manager config g) = Raise NameError /\
  fst (shutdown_manager g1) = Ret tt /\
  get_manager g2 = None /\
  filter is_signal (trace (os_world g2))
  = (filter is_signal (trace (os_world g)) ++ [SysKill child SIGTERM])%list /\
  mem child (procs (os_world g2)) = false /\
  fs_pid (os_world g2) = None /\
  fs_last_active (os_world g2) = None.
Proof.
  intros Hen Hff Hdead child g1 g2. unfold g2, g1, child. clear g2 g1 child.
  set (s0 := mkState (__init__ config) (os_world g)) in *.
  destruct (start_spawn_path s0 Hff Hen Hdead)
    as (s' & E & Hproc & Hwp & Hsig & Hprocs & Hff').
  unfold init_manager, call_on_manager. cbn [_manager os_world].
  fold s0. rewrite E. cbn [fst snd].
  unfold shutdown_manager, call_on_manager, get_manager. cbn [_manager os_world].
  assert (Hs' : mkState (self s') (world s') = s') by (destruct s'; reflexivity).
  rewrite Hs'.
  assert (Hmem : mem (next_pid (world s0)) (procs (world s')) = true).
  { rewrite Hprocs. unfold mem. cbn. rewrite Z.eqb_refl. reflexivity. }
  destruct (stop_live_handle s' (next_pid (world s0)) Hff' Hwp Hproc Hmem)
    as (s1 & E1 & Hsig1 & Hgone & Hp & Hl).
  rewrite E1. cbn. unfold signals in *. rewrite Hsig1, Hsig.
  repeat split; auto.
Qed.

(** X20. [init_manager] in a program that finds a worker recorded alive (one
    spawned by an earlier manager or by another program), enabled and with
    nothing made to fail: the call returns, starts the monitor, spawns
    nothing, and the new manager holds no handle; [get_process] on it then
    returns [None], although the worker is alive. *)
Theorem init_manager_adopts_without_handle (config : Config) (g : Program) :
  enabled (__init__ config) = true ->
  fault_free (mkState (__init__ config) (os_world g)) = true ->
  recorded_alive (mkState (__init__ config) (os_world g)) = true ->
  fst (init_manager config g) = Ret tt /\
  exists m,
    get_manager (snd (init_manager config g)) = Some m /\
    process m = None /\
    _monitor_thread m = true /\
    filter is_spawn (trace (os_world (snd (init_manager config g))))
    = filter is_spawn (trace (os_world g)) /\
    fst (get_process (mkState m (os_world (snd (init_manager config g))))) = Ret None.
Proof.
  intros Hen Hff Halive.
  set (s := mkState (__init__ config) (os_world g)) in *.
  assert (Hens : enabled (self s) = true) by exact Hen.
  set (s0 := mkState (with_monitor_thread true (self s))
                     (with_trace (trace (world s) ++ [ThreadStart]) (world s))).
  assert (E : start s = _start_worker s0).
  { unfold start, _start_monitor, bind, gets, modify_self, log, modify_world.
    rewrite Hens. reflexivity. }
  assert (Hff0 : fault_free s0 = true).
  { unfold s0, fault_free in *. destruct (world s). exact Hff. }
  assert (Halive0 : recorded_alive s0 = true).
  { unfold s0, recorded_alive in *. destruct (world s). exact Halive. }
  assert (Ha0 : fst (is_process_alive s0) = Ret true).
  { rewrite (is_process_alive_fault_free s0 Hff0), Halive0. reflexivity. }
  assert (E0 : _start_worker s0 = (Ret tt, snd (is_process_alive s0))).
  { rewrite _start_worker_split. unfold bind.
    destruct (is_process_alive s0) as [r s1]. cbn in Ha0. subst r. reflexivity. }
  generalize (is_process_alive_keeps_durable s0).
  generalize (is_process_alive_keeps_spawns s0).
  generalize (is_process_alive_keeps_ff s0 Hff0).
  set (s1 := snd (is_process_alive s0)) in *.
  unfold same. intros Hff1 Hsp Hd.
  assert (Halive1 : recorded_alive s1 = true).
  { rewrite (recorded_alive_durable s0 s1 Hd). exact Halive0. }
  unfold durable in Hd.
  injection Hd as D1 D2 D3 D4 D5 D6 D7 D8.
  assert (Ha1 : fst (is_process_alive s1) = Ret true).
  { rewrite (is_process_alive_fault_free s1 Hff1), Halive1. reflexivity. }
  assert (Hen1 : enabled (self s1) = true) by (rewrite D1; unfold s0; cbn; exact Hens).
  destruct (get_process_reuses_live_worker s1 Hen1 Ha1
              (fault_free_firstn 2 _ (is_process_alive_keeps_ff s1 Hff1)))
    as (s2 & E2 & _).
  unfold init_manager, call_on_manager, get_manager. cbn [_manager os_world].
  fold s. rewrite E, E0. cbn [fst snd].
  split; [reflexivity | ].
  exists (self s1).
  assert (Hs1 : mkState (self s1) (world s1) = s1) by (destruct s1; reflexivity).
  cbn [_manager os_world]. rewrite Hs1, E2. cbn [fst]. rewrite D1.
  split; [reflexivity | ]. split; [reflexivity | ]. split; [reflexivity | ].
  split; [ | reflexivity].
  unfold spawns in Hsp. rewrite Hsp. unfold s0, s. cbn [world].
  destruct (os_world g). cbn. rewrite filter_app. cbn. apply app_nil_r.
Qed.

Lemma nothing_left_to_clear (s : State) :
  fs_pid (world s) = None ->
  fs_last_active (world s) = None ->
  stat_ok s = true ->
  _terminate_process s = (Ret tt, s) /\ _cleanup_files s = (Ret tt, s).
Proof.
  destruct s as [m w]. destruct w as [fp fl ps gs np cs t o sp sl tr].
  unfold stat_ok. cbn. intros -> -> Hs.
  destruct sp; [discriminate Hs | ]. destruct sl; [discriminate Hs | ].
  split; reflexivity.
Qed.

Lemma _terminate_process_keeps_sso : keeps still_stat_ok _terminate_process.
Proof. unfold _terminate_process, _cleanup_files. keeps_structure; sso_leaves. Qed.

(** X21. With nothing made to fail, [_terminate_process] and [_cleanup_files]
    are idempotent: after one call a second call returns and changes
    nothing, so the worker is not signalled twice. *)
Theorem termination_and_cleanup_are_idempotent (s : State) :
  fault_free s = true ->
  _terminate_process (snd (_terminate_process s)) = (Ret tt, snd (_terminate_process s)) /\
  _cleanup_files (snd (_cleanup_files s)) = (Ret tt, snd (_cleanup_files s)).
Proof.
  intros Hff.
  destruct (fault_free_parts s Hff) as [_ Hs].
  destruct (_terminate_process_clears s Hff) as [H1 H2].
  destruct (_cleanup_files_clears s Hff) as [H3 H4].
  split.
  - apply (nothing_left_to_clear _ H1 H2 (_terminate_process_keeps_sso s Hs)).
  - apply (nothing_left_to_clear _ H3 H4 (_cleanup_files_keeps_sso s Hs)).
Qed.

End CoverageFacts.

(** ** The further theorems at concrete inputs *)

Lemma _terminate_process_signals_then_clears_witness :
  fst (_terminate_process idle_state) = Ret tt /\
  trace (world (snd (_terminate_process idle_state)))
  = (trace (world idle_state) ++ [SysKill 4242 SIGTERM])%list /\
  fs_pid (world (snd (_terminate_process idle_state))) = None /\
  fs_last_active (world (snd (_terminate_process idle_state))) = None.
Proof.
  exact (_terminate_process_signals_then_clears idle_state "4242" 4242
           eq_refl eq_refl eq_refl).
Defined.

Lemma _start_worker_never_spawns_second_witness :
  fst (_start_worker idle_state) = Ret tt /\
  spawns (snd (_start_worker idle_state)) = spawns idle_state /\
  durable (snd (_start_worker idle_state)) = durable idle_state.
Proof. exact (_start_worker_never_spawns_second idle_state eq_refl). Defined.

Lemma _start_worker_spawns_once_then_raises_witness :
  fst (_start_worker fresh_state) = Raise NameError /\
  spawns (snd (_start_worker fresh_state))
  = (spawns fresh_state ++ [SysSpawn ["mcp-worker"; "--stdio"] 5000])%list /\
  process (self (snd (_start_worker fresh_state))) = Some (mkPopen 5000 None) /\
  procs (world (snd (_start_worker fresh_state))) = [5000] /\
  fs_pid (world (snd (_start_worker fresh_state))) = Some (str_int 5000) /\
  fs_last_active (world (snd (_start_worker fresh_state)))
  = Some (str_float (now (world fresh_state))).
Proof.
  exact (_start_worker_spawns_once_then_raises fresh_state eq_refl eq_refl eq_refl).
Defined.

Lemma _start_worker_returns_only_without_spawn_witness :
  fst (is_process_alive idle_state) = Ret true /\
  spawns (snd (_start_worker idle_state)) = spawns idle_state /\
  durable (snd (_start_worker idle_state)) = durable idle_state.
Proof. exact (_start_worker_returns_only_without_spawn idle_state eq_refl). Defined.

Lemma get_process_returns_only_stored_handle_witness :
  None = (if enabled (self foreign_state) then process (self foreign_state) else None) /\
  spawns (snd (get_process foreign_state)) = spawns foreign_state /\
  self (snd (get_process foreign_state)) = self foreign_state /\
  fs_pid (world (snd (get_process foreign_state))) = fs_pid (world foreign_state).
Proof. exact (get_process_returns_only_stored_handle foreign_state None eq_refl). Defined.

Lemma get_process_second_call_returns_spawned_worker_witness :
  fst (get_process fresh_state) = Raise NameError /\
  recorded_alive (snd (get_process fresh_state)) = true /\
  fst (get_process (snd (get_process fresh_state))) = Ret (Some (mkPopen 5000 None)) /\
  spawns (snd (get_process (snd (get_process fresh_state))))
  = (spawns fresh_state ++ [SysSpawn ["mcp-worker"; "--stdio"] 5000])%list.
Proof.
  exact (get_process_second_call_returns_spawned_worker fresh_state
           eq_refl eq_refl eq_refl eq_refl).
Defined.

Lemma start_starts_monitor_first_witness :
  _monitor_thread (self (snd (start fresh_state))) = true /\
  In ThreadStart (trace (world (snd (start fresh_state)))) /\
  (fst (start fresh_state) = Ret tt ->
   spawns (snd (start fresh_state)) = spawns fresh_state).
Proof. exact (start_starts_monitor_first fresh_state eq_refl). Defined.

Lemma stop_gives_up_before_cleanup_witness :
  fst (stop stubborn_state) = Raise TimeoutExpired /\
  _stop_event (self (snd (stop stubborn_state))) = true /\
  trace (world (snd (stop stubborn_state)))
  = (trace (world stubborn_state) ++ [SysKill 4242 SIGTERM])%list /\
  fs_pid (world (snd (stop stubborn_state))) = Some "4242" /\
  fs_last_active (world (snd (stop stubborn_state))) = Some "100.0" /\
  procs (world (snd (stop stubborn_state))) = [4242].
Proof.
  exact (stop_gives_up_before_cleanup stubborn_state (mkPopen 4242 None)
           TimeoutExpired [] eq_refl eq_refl eq_refl eq_refl eq_refl).
Defined.

Lemma stop_without_handle_signals_nobody_witness :
  trace (world (snd (stop foreign_state))) = trace (world foreign_state) /\
  procs (world (snd (stop foreign_state))) = [4242] /\
  fst (stop foreign_state) = Ret tt /\
  fs_pid (world (snd (stop foreign_state))) = None /\
  fs_last_active (world (snd (stop foreign_state))) = None.
Proof.
  destruct (stop_without_handle_signals_nobody foreign_state eq_refl eq_refl)
    as (H1 & H2 & H3 & H4).
  exact (conj H1 (conj H2 (conj (H3 eq_refl) (H4 eq_refl)))).
Defined.

Lemma monitor_dies_of_refused_interval_witness :
  (_monitor_loop 3 hasty_state = (Raise ValueError, snd (monitor_tick hasty_state)) /\
   monitor_step AtLoopHead hasty_state
   = (Died ValueError, snd (monitor_tick hasty_state))) /\
  (_monitor_loop 3 patient_state
   = (Raise OverflowError, snd (monitor_tick patient_state)) /\
   monitor_step AtLoopHead patient_state
   = (Died OverflowError, snd (monitor_tick patient_state))).
Proof.
  split.
  - exact (monitor_dies_of_refused_interval (py := decimal_builtins) hasty_state
             2%nat ValueError eq_refl eq_refl eq_refl).
  - exact (monitor_dies_of_refused_interval (py := decimal_builtins) patient_state
             2%nat OverflowError eq_refl eq_refl eq_refl).
Defined.

Lemma _cleanup_files_only_ever_removes_witness :
  fst (_cleanup_files idle_state) = Ret tt /\
  (file pid_file (world (snd (_cleanup_files idle_state))) = None \/
   file pid_file (world (snd (_cleanup_files idle_state)))
   = file pid_file (world idle_state)) /\
  self (snd (_cleanup_files idle_state)) = self idle_state /\
  procs (world (snd (_cleanup_files idle_state))) = procs (world idle_state) /\
  trace (world (snd (_cleanup_files idle_state))) = trace (world idle_state).
Proof.
  destruct (_cleanup_files_only_ever_removes idle_state pid_file) as (H1 & H2).
  exact (conj (H1 eq_refl) H2).
Defined.

Lemma _terminate_process_signals_at_most_once_witness :
  fst (_terminate_process idle_state) = Ret tt /\
  self (snd (_terminate_process idle_state)) = self idle_state /\
  procs (world (snd (_terminate_process idle_state))) = procs (world idle_state) /\
  (trace (world (snd (_terminate_process idle_state))) = trace (world idle_state) \/
   exists txt n,
     fs_pid (world idle_state) = Some txt /\ py_int txt = Some n /\
     trace (world (snd (_terminate_process idle_state)))
     = (trace (world idle_state) ++ [SysKill n SIGTERM])%list).
Proof.
  destruct (_terminate_process_signals_at_most_once (py := decimal_builtins) idle_state)
    as (H1 & H2).
  exact (conj (H1 eq_refl) H2).
Defined.

Lemma init_then_shutdown_releases_worker_witness :
  fst (init_manager example_config fresh_program) = Raise NameError /\
  fst (shutdown_manager (snd (init_manager example_config fresh_program))) = Ret tt /\
  get_manager (snd (shutdown_manager (snd (init_manager example_config fresh_program))))
  = None /\
  filter is_signal
    (trace (os_world (snd (shutdown_manager
                             (snd (init_manager example_config fresh_program))))))
  = (filter is_signal (trace (os_world fresh_program)) ++ [SysKill 5000 SIGTERM])%list /\
  mem 5000 (procs (os_world (snd (shutdown_manager
                                    (snd (init_manager example_config fresh_program))))))
  = false /\
  fs_pid (os_world (snd (shutdown_manager
                           (snd (init_manager example_config fresh_program))))) = None /\
  fs_last_active (os_world (snd (shutdown_manager
                                   (snd (init_manager example_config fresh_program)))))
  = None.
Proof.
  exact (init_then_shutdown_releases_worker example_config fresh_program
           eq_refl eq_refl eq_refl).
Defined.

Lemma init_manager_adopts_without_handle_witness :
  fst (init_manager example_config idle_program) = Ret tt /\
  exists m,
    get_manager (snd (init_manager example_config idle_program)) = Some m /\
    process m = None /\
    _monitor_thread m = true /\
    filter is_spawn (trace (os_world (snd (init_manager example_config idle_program))))
    = filter is_spawn (trace (os_world idle_program)) /\
    fst (get_process
           (mkState m (os_world (snd (init_manager example_config idle_program)))))
    = Ret None.
Proof.
  exact (init_manager_adopts_without_handle example_config idle_program
           eq_refl eq_refl eq_refl).
Defined.

Lemma termination_and_cleanup_are_idempotent_witness :
  _terminate_process (snd (_terminate_process idle_state))
  = (Ret tt, snd (_terminate_process idle_state)) /\
  _cleanup_files (snd (_cleanup_files idle_state))
  = (Ret tt, snd (_cleanup_files idle_state)).
Proof. exact (termination_and_cleanup_are_idempotent idle_state eq_refl). Defined.

Lemma init_manager_registers_before_start_witness :
  init_manager disabled_config fresh_program
  = (Ret tt, mkProgram (Some (__init__ disabled_config)) (os_world fresh_program)).
Proof.
  exact (proj2 (init_manager_registers_before_start disabled_config fresh_program)
               eq_refl).
Defined.
